(** * FractionalRealEstate: the property registry and settlement contract

    A shallow embedding of the [FractionalRealEstate] contract (Algorand
    TypeScript, compiled to the AVM) and proofs about its four public
    methods: [createPropertyListing], [purchaseFromLister],
    [delistProperty] and [getPropertyInfo].

    Modelling choices.
    - [uint64] values are integers in [Z]; the AVM arithmetic opcodes do not
      wrap around but make the program fail on overflow and underflow, which
      is written out in [u64_add], [u64_mul] and [u64_sub].
    - Strings and addresses are byte strings ([list byte]).
    - The box map [listedProperties] is a finite map from the [uint64] key to
      the stored struct.
    - A method runs in a state-and-failure monad: a failed [assert], a failed
      arithmetic opcode or a rejected inner transaction aborts the whole
      call, and an aborted call commits nothing ([commit]).
    - The ledger (asset creation, asset transfers, payments) is the
      execution environment, not part of the contract: it is an interface
      ([Ledger]) that receives the inner transactions the contract builds.
      [RefLedger] is a small executable instance.
    - The resources a call names (box, account and asset references) and the
      fee budget for its inner transactions are taken as provided; what the
      ledger can still refuse is an inner transaction.

    The clients of the contract are embedded as well: the two
    [createBoxReference] helpers (test suite and front end) and the
    [useDelistProperty] hook, whose awaited send and [onTx] callback are
    inputs of the model. *)

From Stdlib Require Import ZArith Lia.
From Stdlib Require Import Strings.Byte Strings.String.
From stdpp Require Import base decidable option list gmap.

Local Open Scope Z_scope.

(** ** Primitive data *)

Definition bytes := list byte.

(** [Bytes(s)] of a string literal of the source. *)
Definition Bytes (s : string) : bytes := list_byte_of_string s.

#[global] Instance byte_eq_dec : EqDecision byte := Byte.byte_eq_dec.

#[global] Instance byte_countable : Countable byte :=
  inj_countable Byte.to_N Byte.of_N Byte.of_to_N.

(** An account is its 32-byte address. *)
Definition Account := bytes.

Definition Global_zeroAddress : Account := replicate 32 x00.

Definition MAX_UINT64 : Z := 2 ^ 64 - 1.

(** ** Failure *)

Inductive error :=
  | AssertFailed (msg : string)   (* assert(cond, msg) with cond false *)
  | MatchFailed                   (* assertMatch with a field that differs *)
  | Overflow                      (* + or * beyond 2^64 - 1 *)
  | Underflow                     (* - below 0 *)
  | BoxMissing                    (* .value of a box that does not exist *)
  | InnerTxnRejected.             (* the ledger refused an inner transaction *)

Inductive result (A : Type) :=
  | Ok (a : A)
  | Abort (e : error).

Arguments Ok {A} a.
Arguments Abort {A} e.

Definition is_ok {A} (r : result A) : bool :=
  match r with Ok _ => true | Abort _ => false end.

(** AVM [+], [*] and [-] on uint64. *)
Definition u64_add (a b : Z) : result Z :=
  if a + b <=? MAX_UINT64 then Ok (a + b) else Abort Overflow.

Definition u64_mul (a b : Z) : result Z :=
  if a * b <=? MAX_UINT64 then Ok (a * b) else Abort Overflow.

Definition u64_sub (a b : Z) : result Z :=
  if b <=? a then Ok (a - b) else Abort Underflow.

(** ** Transactions *)

(** The fields of a payment transaction of the caller's group that the
    contract reads. *)
Record PaymentTxn := {
  pay_amount : Z;
  pay_receiver : Account;
  pay_sender : Account;
  pay_closeRemainderTo : Account;
  pay_rekeyTo : Account;
}.

(** Inner transactions, with the fields the contract sets. *)
Record AssetConfigFields := {
  assetName : bytes;
  unitName : bytes;
  total : Z;
  decimals : Z;
  manager : Account;
  reserve : Account;
  acfg_fee : Z;
}.

Record AssetTransferFields := {
  xferAsset : Z;
  assetReceiver : Account;
  assetAmount : Z;
  axfer_fee : Z;
}.

Record PaymentFields := {
  amount : Z;
  receiver : Account;
  ipay_fee : Z;
}.

Inductive InnerTxn :=
  | ItxnAssetTransfer (f : AssetTransferFields)
  | ItxnPayment (f : PaymentFields).

(** ** The ledger interface

    [L] is the ledger state. Every inner transaction is sent by the
    application account, the first argument of the two operations.
    [itxn_assetConfig] creates an asset and returns its id; [itxn_submitGroup]
    applies a group of transfers atomically. [None] is a rejected
    transaction. [asset_allocated l id] says that [id] has already been
    given to an asset: the ledger draws ids from a counter that only grows,
    so a created asset has an id that was never used, and ids stay used. *)
Class Ledger (L : Type) := {
  asset_allocated : L -> Z -> bool;
  itxn_assetConfig : Account -> AssetConfigFields -> L -> option (Z * L);
  itxn_submitGroup : Account -> list InnerTxn -> L -> option L;
}.

Class LedgerLaws (L : Type) `{Ledger L} : Prop := {
  assetConfig_fresh : forall app f l id l',
    itxn_assetConfig app f l = Some (id, l') -> asset_allocated l id = false;
  assetConfig_allocated : forall app f l id l',
    itxn_assetConfig app f l = Some (id, l') -> asset_allocated l' id = true;
  assetConfig_keeps : forall app f l id l' j,
    itxn_assetConfig app f l = Some (id, l') ->
    asset_allocated l j = true -> asset_allocated l' j = true;
  submitGroup_keeps : forall app g l l' j,
    itxn_submitGroup app g l = Some l' ->
    asset_allocated l j = true -> asset_allocated l' j = true;
}.

(** ** Contract state *)

Record PropertyStruct := {
  address : bytes;
  totalShares : Z;
  availableShares : Z;
  pricePerShare : Z;
  propertyAssetId : Z;
  ownerAddress : Account;
}.

(** The fields of a record that no method writes after creation. *)
Definition same_terms (p q : PropertyStruct) : Prop :=
  address p = address q /\ totalShares p = totalShares q /\
  pricePerShare p = pricePerShare q /\
  propertyAssetId p = propertyAssetId q /\ ownerAddress p = ownerAddress q.

Definition with_availableShares (p : PropertyStruct) (n : Z) : PropertyStruct :=
  {| address := address p;
     totalShares := totalShares p;
     availableShares := n;
     pricePerShare := pricePerShare p;
     propertyAssetId := propertyAssetId p;
     ownerAddress := ownerAddress p |}.

(** What a method reads of its call: [Txn.sender] and
    [Global.currentApplicationAddress]. *)
Record CallEnv := {
  Txn_sender : Account;
  Global_currentApplicationAddress : Account;
}.

Record State (L : Type) := {
  listedProperties : gmap Z PropertyStruct;
  ledger : L;
}.

Arguments listedProperties {L} s.
Arguments ledger {L} s.
Arguments Build_State {L} listedProperties ledger.

(** ** The method monad *)

Definition M (L A : Type) : Type := State L -> result (A * State L).

Definition ret {L A} (a : A) : M L A := fun s => Ok (a, s).

Definition bind {L A B} (m : M L A) (k : A -> M L B) : M L B :=
  fun s => match m s with
           | Ok (a, s') => k a s'
           | Abort e => Abort e
           end.

Definition abort {L A} (e : error) : M L A := fun _ => Abort e.

Definition lift {L A} (r : result A) : M L A :=
  fun s => match r with Ok a => Ok (a, s) | Abort e => Abort e end.

Definition assert {L} (cond : bool) (msg : string) : M L unit :=
  if cond then ret tt else abort (AssertFailed msg).

Definition get_boxes {L} : M L (gmap Z PropertyStruct) :=
  fun s => Ok (listedProperties s, s).

Definition put_boxes {L} (b : gmap Z PropertyStruct) : M L unit :=
  fun s => Ok (tt, Build_State b (ledger s)).

Declare Scope contract_scope.
Delimit Scope contract_scope with contract.

Notation "'do' x <- m ; k" := (bind m (fun x => k))
  (at level 10, x name, m at level 100, k at level 200,
   format "'[v' 'do'  x  <-  m ; '/' k ']'") : contract_scope.

Local Open Scope contract_scope.

(** The state a call leaves behind: an aborted call changes nothing. *)
Definition commit {L A} (s : State L) (r : result (A * State L)) : State L :=
  match r with
  | Ok (_, s') => s'
  | Abort _ => s
  end.

Section Contract.
Context {L : Type} `{Ledger L}.

(** [this.listedProperties(k).exists] *)
Definition box_exists (k : Z) : M L bool :=
  do b <- get_boxes; ret (bool_decide (is_Some (b !! k))).

(** [this.listedProperties(k).value] (read) *)
Definition box_value (k : Z) : M L PropertyStruct :=
  do b <- get_boxes;
  match b !! k with
  | Some p => ret p
  | None => abort BoxMissing
  end.

(** [this.listedProperties(k).value = p] *)
Definition box_set (k : Z) (p : PropertyStruct) : M L unit :=
  do b <- get_boxes; put_boxes (<[k := p]> b).

(** [this.listedProperties(k).delete()] *)
Definition box_delete (k : Z) : M L unit :=
  do b <- get_boxes; put_boxes (delete k b).

(** [itxn.assetConfig({...}).submit()], giving [createdAsset.id] *)
Definition assetConfig_submit (app : Account) (f : AssetConfigFields) : M L Z :=
  fun s => match itxn_assetConfig app f (ledger s) with
           | Some (id, l') => Ok (id, Build_State (listedProperties s) l')
           | None => Abort InnerTxnRejected
           end.

(** [itxn.submitGroup(...)] *)
Definition submitGroup (app : Account) (g : list InnerTxn) : M L unit :=
  fun s => match itxn_submitGroup app g (ledger s) with
           | Some l' => Ok (tt, Build_State (listedProperties s) l')
           | None => Abort InnerTxnRejected
           end.

(** [2500 + 400 * (18 + 68 + Bytes(propertyAddress).length)] *)
Definition boxMbrCost (propertyAddress : bytes) : result Z :=
  match u64_add 18 68 with
  | Abort e => Abort e
  | Ok n =>
    match u64_add n (Z.of_nat (length propertyAddress)) with
    | Abort e => Abort e
    | Ok sz =>
      match u64_mul 400 sz with
      | Abort e => Abort e
      | Ok v => u64_add 2500 v
      end
    end
  end.

(** [Bytes(propertyAddress).slice(0, 32)] *)
Definition truncate_name (propertyAddress : bytes) : bytes :=
  take 32 propertyAddress.

Definition propertyAssetConfig (env : CallEnv) (propertyAddress : bytes)
    (shares : Z) : AssetConfigFields :=
  {| assetName := truncate_name propertyAddress;
     unitName := Bytes "PROP";
     total := shares;
     decimals := 0;
     manager := Global_currentApplicationAddress env;
     reserve := Global_currentApplicationAddress env;
     acfg_fee := 0 |}.

Definition createPropertyAsset (env : CallEnv) (propertyAddress : bytes)
    (shares : Z) : M L Z :=
  assetConfig_submit (Global_currentApplicationAddress env)
    (propertyAssetConfig env propertyAddress shares).

Definition createPropertyListing (env : CallEnv) (mbrPayment : PaymentTxn)
    (propertyAddress : bytes) (shares pricePerShare : Z) : M L Z :=
  do _ <- assert (0 <? shares) "Shares must be greater than 0";
  do _ <- assert (0 <? pricePerShare) "Price per share must be greater than 0";
  do cost <- lift (boxMbrCost propertyAddress);
  do _ <- assert (cost <=? pay_amount mbrPayment) "MBR payment amount is insufficient";
  do _ <- assert (bool_decide (pay_receiver mbrPayment = Global_currentApplicationAddress env))
       "MBR payment must be to the app";
  do _ <- assert (bool_decide (pay_sender mbrPayment = Txn_sender env))
       "MBR payment must be from the caller";
  do assetId <- createPropertyAsset env propertyAddress shares;
  do _ <- box_set assetId
       {| address := propertyAddress;
          totalShares := shares;
          availableShares := shares;
          pricePerShare := pricePerShare;
          propertyAssetId := assetId;
          ownerAddress := Txn_sender env |};
  ret assetId.

(** [assertMatch(payment, {amount, receiver, sender, closeRemainderTo,
    rekeyTo})] of [purchaseFromLister] *)
Definition payment_matches (env : CallEnv) (payment : PaymentTxn)
    (expected_amount : Z) : bool :=
  bool_decide (pay_amount payment = expected_amount)
  && bool_decide (pay_receiver payment = Global_currentApplicationAddress env)
  && bool_decide (pay_sender payment = Txn_sender env)
  && bool_decide (pay_closeRemainderTo payment = Global_zeroAddress)
  && bool_decide (pay_rekeyTo payment = Global_zeroAddress).

Definition assertMatch (cond : bool) : M L unit :=
  if cond then ret tt else abort MatchFailed.

Definition updateAvailableShares (propertyId newAvailableShares : Z) : M L unit :=
  do propertyStruct <- box_value propertyId;
  box_set propertyId
    {| address := address propertyStruct;
       totalShares := totalShares propertyStruct;
       availableShares := newAvailableShares;
       pricePerShare := pricePerShare propertyStruct;
       propertyAssetId := propertyAssetId propertyStruct;
       ownerAddress := ownerAddress propertyStruct |}.

Definition purchaseFromLister (env : CallEnv) (propertyId shares : Z)
    (payment : PaymentTxn) : M L bool :=
  do _ <- assert (0 <? shares) "Must purchase at least one share";
  do ex <- box_exists propertyId;
  do _ <- assert ex "Property not listed";
  do property <- box_value propertyId;
  do price <- lift (u64_mul shares (pricePerShare property));
  do _ <- assertMatch (payment_matches env payment price);
  do _ <- assert (shares <=? availableShares property) "Not enough shares";
  do _ <- submitGroup (Global_currentApplicationAddress env)
       [ ItxnAssetTransfer
           {| xferAsset := propertyAssetId property;
              assetReceiver := Txn_sender env;
              assetAmount := shares;
              axfer_fee := 0 |};
         ItxnPayment
           {| amount := pay_amount payment;
              receiver := ownerAddress property;
              ipay_fee := 0 |} ];
  do rest <- lift (u64_sub (availableShares property) shares);
  do _ <- updateAvailableShares propertyId rest;
  ret true.

Definition delistProperty (env : CallEnv) (propertyId : Z) : M L unit :=
  do ex <- box_exists propertyId;
  do _ <- assert ex "Property not listed";
  do property <- box_value propertyId;
  do _ <- assert (bool_decide (Txn_sender env = ownerAddress property))
       "Only the owner can delist";
  do _ <- assert (bool_decide (availableShares property = totalShares property))
       "Cannot delist property with sold shares";
  box_delete propertyId.

Definition getPropertyInfo (propertyId : Z) : M L PropertyStruct :=
  do ex <- box_exists propertyId;
  do _ <- assert ex "Property not listed";
  box_value propertyId.

(** The inner transactions that a purchase of [shares] of record [p] submits. *)
Definition purchase_group (env : CallEnv) (p : PropertyStruct) (shares : Z)
    (payment : PaymentTxn) : list InnerTxn :=
  [ ItxnAssetTransfer
      {| xferAsset := propertyAssetId p;
         assetReceiver := Txn_sender env;
         assetAmount := shares;
         axfer_fee := 0 |};
    ItxnPayment
      {| amount := pay_amount payment;
         receiver := ownerAddress p;
         ipay_fee := 0 |} ].

(** ** Calls, events and traces *)

Inductive Call :=
  | CreatePropertyListing (mbrPayment : PaymentTxn) (propertyAddress : bytes)
      (shares pricePerShare : Z)
  | PurchaseFromLister (propertyId shares : Z) (payment : PaymentTxn)
  | DelistProperty (propertyId : Z)
  | GetPropertyInfo (propertyId : Z).

Inductive RetVal :=
  | RUint64 (n : Z)
  | RBool (b : bool)
  | RVoid
  | RStruct (p : PropertyStruct).

(** One application call: the ABI router. *)
Definition exec (env : CallEnv) (c : Call) : M L RetVal :=
  match c with
  | CreatePropertyListing mbrPayment propertyAddress shares price =>
      do id <- createPropertyListing env mbrPayment propertyAddress shares price;
      ret (RUint64 id)
  | PurchaseFromLister propertyId shares payment =>
      do b <- purchaseFromLister env propertyId shares payment;
      ret (RBool b)
  | DelistProperty propertyId =>
      do _ <- delistProperty env propertyId;
      ret RVoid
  | GetPropertyInfo propertyId =>
      do p <- getPropertyInfo propertyId;
      ret (RStruct p)
  end.

(** What a successful call does to the state, method by method. *)
Definition call_effect (env : CallEnv) (c : Call) (s s' : State L) : Prop :=
  match c with
  | CreatePropertyListing mbrPayment propertyAddress shares price =>
      exists id l',
        0 < shares /\ 0 < price /\
        itxn_assetConfig (Global_currentApplicationAddress env)
          (propertyAssetConfig env propertyAddress shares) (ledger s) = Some (id, l') /\
        s' = Build_State
               (<[id := {| address := propertyAddress;
                           totalShares := shares;
                           availableShares := shares;
                           pricePerShare := price;
                           propertyAssetId := id;
                           ownerAddress := Txn_sender env |}]> (listedProperties s)) l'
  | PurchaseFromLister pid shares payment =>
      exists p l',
        listedProperties s !! pid = Some p /\
        0 < shares <= availableShares p /\
        itxn_submitGroup (Global_currentApplicationAddress env)
          (purchase_group env p shares payment) (ledger s) = Some l' /\
        s' = Build_State
               (<[pid := with_availableShares p (availableShares p - shares)]>
                  (listedProperties s)) l'
  | DelistProperty pid =>
      exists p,
        listedProperties s !! pid = Some p /\
        availableShares p = totalShares p /\
        s' = Build_State (delete pid (listedProperties s)) (ledger s)
  | GetPropertyInfo pid => s' = s
  end.

(** What happens to the application between two observations: somebody calls
    a method, or the rest of the ledger moves on (other transactions, among
    them the payments and opt-ins of the callers' groups). *)
Inductive Event :=
  | EvCall (env : CallEnv) (c : Call)
  | EvLedger (l' : L).

Definition apply_event (s : State L) (ev : Event) : State L :=
  match ev with
  | EvCall env c => commit s (exec env c s)
  | EvLedger l' => Build_State (listedProperties s) l'
  end.

(** Asset ids are never given back. *)
Definition ledger_advances (l l' : L) : Prop :=
  forall j, asset_allocated l j = true -> asset_allocated l' j = true.

Definition valid_event (s : State L) (ev : Event) : Prop :=
  match ev with
  | EvCall _ _ => True
  | EvLedger l' => ledger_advances (ledger s) l'
  end.

Fixpoint run (s : State L) (evs : list Event) : State L :=
  match evs with
  | [] => s
  | ev :: rest => run (apply_event s ev) rest
  end.

Fixpoint valid_trace (s : State L) (evs : list Event) : Prop :=
  match evs with
  | [] => True
  | ev :: rest => valid_event s ev /\ valid_trace (apply_event s ev) rest
  end.

(** The states of a deployed application: it starts with no box. *)
Inductive reachable : State L -> Prop :=
  | reachable_init l : reachable (Build_State ∅ l)
  | reachable_step s ev :
      reachable s -> valid_event s ev -> reachable (apply_event s ev).

(** The shares that event [ev] sells of property [pid] in state [s]. *)
Definition shares_bought (pid : Z) (s : State L) (ev : Event) : Z :=
  match ev with
  | EvCall env (PurchaseFromLister k n payment) =>
      if bool_decide (k = pid) && is_ok (purchaseFromLister env k n payment s)
      then n else 0
  | _ => 0
  end.

Fixpoint shares_sold (pid : Z) (s : State L) (evs : list Event) : Z :=
  match evs with
  | [] => 0
  | ev :: rest => shares_bought pid s ev + shares_sold pid (apply_event s ev) rest
  end.

(** ** Invariants of the store *)

Definition shares_bounded (s : State L) : Prop :=
  forall k p, listedProperties s !! k = Some p ->
    0 <= availableShares p <= totalShares p.

Definition keys_allocated (s : State L) : Prop :=
  forall k, is_Some (listedProperties s !! k) ->
    asset_allocated (ledger s) k = true.

Definition records_well_formed (s : State L) : Prop :=
  forall k p, listedProperties s !! k = Some p ->
    propertyAssetId p = k /\ 0 < totalShares p /\ 0 < pricePerShare p.

End Contract.

Arguments Event L : clear implicits.

(** ** A reference ledger

    An executable instance of the interface, used to run the contract on
    concrete calls. It keeps the counter that ids are drawn from, the
    parameters of the created assets, the asset holdings (an account holds an
    asset only after opting in; the creator holds the whole supply) and the
    microAlgo balances. Minimum balances and fees are left out. *)

Record RefLedger := {
  txnCounter : Z;
  assets : gmap Z AssetConfigFields;
  holdings : gmap (Account * Z) Z;
  algos : gmap Account Z;
}.

Definition ref_allocated (l : RefLedger) (id : Z) : bool :=
  bool_decide (id <= txnCounter l).

Definition ref_assetConfig (app : Account) (f : AssetConfigFields)
    (l : RefLedger) : option (Z * RefLedger) :=
  if bool_decide (length (assetName f) <= 32)%nat
     && bool_decide (length (unitName f) <= 8)%nat
     && bool_decide (0 <= total f <= MAX_UINT64)
     && bool_decide (0 <= decimals f <= 19)
  then
    let id := txnCounter l + 1 in
    Some (id, {| txnCounter := id;
                 assets := <[id := f]> (assets l);
                 holdings := <[(app, id) := total f]> (holdings l);
                 algos := algos l |})
  else None.

Definition ref_assetTransfer (app : Account) (f : AssetTransferFields)
    (l : RefLedger) : option RefLedger :=
  match holdings l !! (app, xferAsset f) with
  | Some h =>
    if bool_decide (0 <= assetAmount f <= h) then
      let debited := <[(app, xferAsset f) := h - assetAmount f]> (holdings l) in
      match debited !! (assetReceiver f, xferAsset f) with
      | Some r =>
        Some {| txnCounter := txnCounter l;
                assets := assets l;
                holdings := <[(assetReceiver f, xferAsset f) := r + assetAmount f]> debited;
                algos := algos l |}
      | None => None
      end
    else None
  | None => None
  end.

Definition balance (l : RefLedger) (a : Account) : Z :=
  default 0 (algos l !! a).

Definition ref_payment (app : Account) (f : PaymentFields)
    (l : RefLedger) : option RefLedger :=
  if bool_decide (0 <= amount f <= balance l app) then
    let debited := <[app := balance l app - amount f]> (algos l) in
    Some {| txnCounter := txnCounter l;
            assets := assets l;
            holdings := holdings l;
            algos := <[receiver f := default 0 (debited !! receiver f) + amount f]> debited |}
  else None.

Definition ref_itxn (app : Account) (t : InnerTxn) (l : RefLedger) : option RefLedger :=
  match t with
  | ItxnAssetTransfer f => ref_assetTransfer app f l
  | ItxnPayment f => ref_payment app f l
  end.

Fixpoint ref_submitGroup (app : Account) (g : list InnerTxn) (l : RefLedger)
    : option RefLedger :=
  match g with
  | [] => Some l
  | t :: rest =>
    match ref_itxn app t l with
    | Some l' => ref_submitGroup app rest l'
    | None => None
    end
  end.

#[global] Instance RefLedger_ledger : Ledger RefLedger := {|
  asset_allocated := ref_allocated;
  itxn_assetConfig := ref_assetConfig;
  itxn_submitGroup := ref_submitGroup;
|}.

(** Moves of the rest of the reference ledger that the scenarios use. *)
Definition ref_fund (a : Account) (n : Z) (l : RefLedger) : RefLedger :=
  {| txnCounter := txnCounter l;
     assets := assets l;
     holdings := holdings l;
     algos := <[a := balance l a + n]> (algos l) |}.

Definition ref_optIn (a : Account) (asset : Z) (l : RefLedger) : RefLedger :=
  {| txnCounter := txnCounter l;
     assets := assets l;
     holdings := <[(a, asset) := default 0 (holdings l !! (a, asset))]> (holdings l);
     algos := algos l |}.

Definition ref_genesis : RefLedger :=
  {| txnCounter := 1000; assets := ∅; holdings := ∅; algos := ∅ |}.

(** Concrete accounts and calls for the scenarios. *)
Definition acct (b : byte) : Account := replicate 32 b.
Definition app_addr : Account := acct x0a.
Definition lister : Account := acct x01.
Definition buyer : Account := acct x02.

Definition env_of (sender : Account) : CallEnv :=
  {| Txn_sender := sender; Global_currentApplicationAddress := app_addr |}.

Definition plain_payment (sender : Account) (n : Z) : PaymentTxn :=
  {| pay_amount := n;
     pay_receiver := app_addr;
     pay_sender := sender;
     pay_closeRemainderTo := Global_zeroAddress;
     pay_rekeyTo := Global_zeroAddress |}.

Definition main_st : bytes := Bytes "123 Main St".

Definition s_init : State RefLedger :=
  Build_State ∅ (ref_fund app_addr 1000000 ref_genesis).

Definition list_main_st : Call :=
  CreatePropertyListing (plain_payment lister 100000) main_st 100 1000000.

(** After the listing of 100 shares of "123 Main St" at 1,000,000 each. *)
Definition s_listed : State RefLedger :=
  apply_event s_init (EvCall (env_of lister) list_main_st).

(** The buyer's group: opt in to the asset and pay the application. *)
Definition buyer_ready (l : RefLedger) : RefLedger :=
  ref_fund app_addr 10000000 (ref_optIn buyer 1001 l).

Definition s_ready : State RefLedger :=
  apply_event s_listed (EvLedger (buyer_ready (ledger s_listed))).

Definition buy_ten : Call :=
  PurchaseFromLister 1001 10 (plain_payment buyer 10000000).

Definition s_bought : State RefLedger :=
  apply_event s_ready (EvCall (env_of buyer) buy_ten).

(** The record of the listing, as [createPropertyListing] writes it. *)
Definition main_st_record : PropertyStruct :=
  {| address := main_st;
     totalShares := 100;
     availableShares := 100;
     pricePerShare := 1000000;
     propertyAssetId := 1001;
     ownerAddress := lister |}.

(** A listing whose address is longer than an asset name may be. *)
Definition long_address : bytes :=
  Bytes "1600 Pennsylvania Avenue NW, Washington, DC 20500".

Definition list_long_address : Call :=
  CreatePropertyListing (plain_payment lister 100000) long_address 50 500000.

Definition s_two_listings : State RefLedger :=
  apply_event s_listed (EvCall (env_of lister) list_long_address).

(** A listing whose full price does not fit in 64 bits. *)
Definition list_pricey : Call :=
  CreatePropertyListing (plain_payment lister 100000) main_st (2 ^ 32) (2 ^ 32 + 1).

Definition s_pricey : State RefLedger :=
  apply_event s_init (EvCall (env_of lister) list_pricey).

Definition pricey_record : PropertyStruct :=
  {| address := main_st;
     totalShares := 2 ^ 32;
     availableShares := 2 ^ 32;
     pricePerShare := 2 ^ 32 + 1;
     propertyAssetId := 1001;
     ownerAddress := lister |}.

(** The lister delists right after listing. *)
Definition s_delisted : State RefLedger :=
  apply_event s_listed (EvCall (env_of lister) (DelistProperty 1001)).

(** ** Payments forwarded along a trace *)

Section Settlement.
Context {L : Type} `{Ledger L}.

(** The microAlgos that event [ev] makes the application pay to the owner of
    property [pid]: the [amount] of the inner payment of a successful
    purchase, which is [payment.amount]. *)
Definition payment_forwarded (pid : Z) (s : State L) (ev : Event L) : Z :=
  match ev with
  | EvCall env (PurchaseFromLister k n payment) =>
      if bool_decide (k = pid) && is_ok (purchaseFromLister env k n payment s)
      then pay_amount payment else 0
  | _ => 0
  end.

Fixpoint payments_forwarded (pid : Z) (s : State L) (evs : list (Event L)) : Z :=
  match evs with
  | [] => 0
  | ev :: rest =>
      payment_forwarded pid s ev + payments_forwarded pid (apply_event s ev) rest
  end.

End Settlement.

(** ** Box references of the clients

    The test suite and the front-end hook each have a [createBoxReference]
    that names the box of a property: the bytes of the prefix followed by
    the key as 8 big-endian bytes. *)

Definition byte_of_Z (z : Z) : byte :=
  default x00 (Byte.of_N (Z.to_N (z mod 256))).

Definition Z_of_byte (b : byte) : Z := Z.of_N (Byte.to_N b).

(** [v] as [n] big-endian bytes (the low [8 * n] bits of [v]). *)
Fixpoint be_encode (n : nat) (v : Z) : bytes :=
  match n with
  | O => []
  | S n' => be_encode n' (v / 256) ++ [byte_of_Z v]
  end.

(** The number that big-endian bytes stand for. *)
Definition be_decode (bs : bytes) : Z :=
  fold_left (fun acc b => acc * 256 + Z_of_byte b) bs 0.

Record BoxReference := {
  box_appId : Z;
  box_name : bytes;
}.

Module Tests.

(** [new ABIUintType(64).encode(key)]: throws unless [0 <= key < 2^64]. *)
Definition ABIUint64_encode (key : Z) : option bytes :=
  if bool_decide (0 <= key <= MAX_UINT64) then Some (be_encode 8 key) else None.

Definition createBoxReference (appId : Z) (prefix : string) (key : Z)
    : option BoxReference :=
  match ABIUint64_encode key with
  | Some encodedKey =>
      Some {| box_appId := appId; box_name := Bytes prefix ++ encodedKey |}
  | None => None
  end.

End Tests.

Module Hook.

(** [view.setBigUint64(0, key, false)] on a fresh 8-byte buffer: the key is
    reduced modulo [2^64] and written big-endian. *)
Definition setBigUint64 (key : Z) : bytes := be_encode 8 (key mod 2 ^ 64).

Definition createBoxReference (appId : Z) (prefix : string) (key : Z)
    : BoxReference :=
  {| box_appId := appId; box_name := Bytes prefix ++ setBigUint64 key |}.

(** *** useDelistProperty *)

(** The four pieces of state of the hook. *)
Record HookState := {
  st_delistingPropertyId : option Z;
  st_loading : bool;
  st_error : option string;
  st_success : option string;
}.

Definition initial : HookState :=
  {| st_delistingPropertyId := None;
     st_loading := false;
     st_error := None;
     st_success := None |}.

(** A thrown value: an [Error] with its message, or anything else. *)
Inductive Thrown :=
  | ErrorObject (message : string)
  | OtherValue.

(** How [await appClient.send.delistProperty(...)] ends: it resolves to a
    result whose [txIds] may be missing, or it throws. *)
Inductive SendOutcome :=
  | Resolved (txIds : option (list string))
  | Rejected (e : Thrown).

Record AppClient := {
  appId : Z;
  send_delistProperty : Z -> list BoxReference -> SendOutcome;
}.

(** The [onTx] callback: called with a transaction id or [undefined], it
    returns ([None]) or throws. *)
Definition Callback := option string -> option Thrown.

(** What a run of the hook's [delistProperty] leaves: the state after all
    the setters, the arguments [onTx] was called with, in order, and the
    value the returned promise is rejected with, if it is. *)
Record Run := {
  final : HookState;
  onTx_calls : list (option string);
  rejection : option Thrown;
}.

(** [!activeAddress] *)
Definition falsy (activeAddress : option string) : bool :=
  match activeAddress with
  | None => true
  | Some a => bool_decide (a = EmptyString)
  end.

Definition setError (e : option string) (st : HookState) : HookState :=
  {| st_delistingPropertyId := st_delistingPropertyId st;
     st_loading := st_loading st;
     st_error := e;
     st_success := st_success st |}.

Definition setSuccess (m : option string) (st : HookState) : HookState :=
  {| st_delistingPropertyId := st_delistingPropertyId st;
     st_loading := st_loading st;
     st_error := st_error st;
     st_success := m |}.

Definition setLoading (b : bool) (st : HookState) : HookState :=
  {| st_delistingPropertyId := st_delistingPropertyId st;
     st_loading := b;
     st_error := st_error st;
     st_success := st_success st |}.

Definition setDelistingPropertyId (k : option Z) (st : HookState) : HookState :=
  {| st_delistingPropertyId := k;
     st_loading := st_loading st;
     st_error := st_error st;
     st_success := st_success st |}.

(** [if (onTx) onTx(arg)]: the calls made and what was thrown. *)
Definition call_onTx (onTx : option Callback) (arg : option string)
    : list (option string) * option Thrown :=
  match onTx with
  | Some f => ([arg], f arg)
  | None => ([], None)
  end.

(** [e instanceof Error ? e.message : 'Failed to delist property'] *)
Definition message_of (e : Thrown) : string :=
  match e with
  | ErrorObject m => m
  | OtherValue => "Failed to delist property"%string
  end.

(** The [catch] block followed by the [finally] block. *)
Definition catch_finally (e : Thrown) (onTx : option Callback)
    (calls : list (option string)) (st : HookState) : Run :=
  let st := setError (Some (message_of e)) st in
  let (calls', thrown) := call_onTx onTx None in
  {| final := setDelistingPropertyId None (setLoading false st);
     onTx_calls := calls ++ calls';
     rejection := thrown |}.

(** The argument of [onTx] after a send that resolved:
    [result.txIds[0]] when [result.txIds && result.txIds.length > 0]. *)
Definition first_txId (txIds : option (list string)) : option string :=
  match txIds with
  | Some (t :: _) => Some t
  | _ => None
  end.

Definition delistProperty (appClient : option AppClient)
    (activeAddress : option string) (propertyId : Z)
    (onTx : option Callback) (st : HookState) : Run :=
  match appClient with
  | None =>
      {| final := setError (Some "App is not ready. Please try again in a moment."%string) st;
         onTx_calls := [];
         rejection := None |}
  | Some client =>
      if falsy activeAddress then
        {| final := setError (Some "Please connect your wallet to delist."%string) st;
           onTx_calls := [];
           rejection := None |}
      else
        let st := setDelistingPropertyId (Some propertyId) st in
        let st := setLoading true st in
        let st := setError None st in
        let st := setSuccess None st in
        let boxReference := createBoxReference (appId client) "properties" propertyId in
        match send_delistProperty client propertyId [boxReference] with
        | Resolved txIds =>
            let st := setSuccess (Some "Property delisted!"%string) st in
            match call_onTx onTx (first_txId txIds) with
            | (calls, None) =>
                {| final := setDelistingPropertyId None (setLoading false st);
                   onTx_calls := calls;
                   rejection := None |}
            | (calls, Some e) => catch_finally e onTx calls st
            end
        | Rejected e => catch_finally e onTx [] st
        end
  end.

End Hook.

(** A client and callbacks to run the hook with. *)
Definition demo_client : Hook.AppClient :=
  {| Hook.appId := 7;
     Hook.send_delistProperty := fun propertyId _ =>
       if bool_decide (propertyId = 1001)
       then Hook.Resolved (Some ["TXID"%string])
       else Hook.Rejected (Hook.ErrorObject "Property not listed") |}.

Definition quiet_onTx : Hook.Callback := fun _ => None.

Definition throwing_onTx : Hook.Callback := fun arg =>
  match arg with
  | Some _ => Some (Hook.ErrorObject "render failed")
  | None => None
  end.

(** * Properties *)

(** ** Checked arithmetic *)

Lemma u64_mul_Ok a b v : u64_mul a b = Ok v <-> a * b <= MAX_UINT64 /\ v = a * b.
Proof.
  unfold u64_mul. destruct (Z.leb_spec (a * b) MAX_UINT64); split.
  - intros [= <-]. lia.
  - intros [_ ->]. reflexivity.
  - discriminate.
  - lia.
Qed.

Lemma u64_mul_overflow a b : MAX_UINT64 < a * b -> u64_mul a b = Abort Overflow.
Proof. unfold u64_mul. destruct (Z.leb_spec (a * b) MAX_UINT64); [lia | reflexivity]. Qed.

Lemma u64_sub_le a b : b <= a -> u64_sub a b = Ok (a - b).
Proof. unfold u64_sub. destruct (Z.leb_spec b a); [reflexivity | lia]. Qed.

Lemma boxMbrCost_Ok (a : bytes) v :
  boxMbrCost a = Ok v <->
  2500 + 400 * (18 + 68 + Z.of_nat (length a)) <= MAX_UINT64 /\
  v = 2500 + 400 * (18 + 68 + Z.of_nat (length a)).
Proof.
  unfold boxMbrCost, u64_add, u64_mul, MAX_UINT64.
  repeat match goal with
         | |- context [Z.leb ?x ?y] => destruct (Z.leb_spec x y)
         end; split; try discriminate; try (intros [= <-]; lia);
    try (intros [? ->]; reflexivity); lia.
Qed.

Lemma payment_matches_spec env payment v :
  payment_matches env payment v = true <->
  pay_amount payment = v /\
  pay_receiver payment = Global_currentApplicationAddress env /\
  pay_sender payment = Txn_sender env /\
  pay_closeRemainderTo payment = Global_zeroAddress /\
  pay_rekeyTo payment = Global_zeroAddress.
Proof.
  unfold payment_matches. rewrite !andb_true_iff, !bool_decide_eq_true. tauto.
Qed.

Section MethodSpecs.
Context {L : Type} `{Ledger L}.

Implicit Types (s : State L) (env : CallEnv) (p : PropertyStruct).

Ltac run_method :=
  cbv [bind ret abort lift assert assertMatch get_boxes put_boxes
       box_exists box_value box_set box_delete submitGroup assetConfig_submit
       createPropertyAsset updateAvailableShares];
  cbn [listedProperties ledger].

(** *** getPropertyInfo *)

Lemma getPropertyInfo_Some pid s p :
  listedProperties s !! pid = Some p -> getPropertyInfo pid s = Ok (p, s).
Proof.
  intros Hp. unfold getPropertyInfo. run_method.
  rewrite bool_decide_eq_true_2 by (rewrite Hp; eauto).
  cbv beta iota. rewrite Hp. reflexivity.
Qed.

Lemma getPropertyInfo_None pid s :
  listedProperties s !! pid = None ->
  getPropertyInfo pid s = Abort (AssertFailed "Property not listed").
Proof.
  intros Hp. unfold getPropertyInfo. run_method. rewrite Hp.
  rewrite bool_decide_eq_false_2; [reflexivity |]. intros [? ?]; discriminate.
Qed.

(** *** delistProperty *)

Lemma delistProperty_None env pid s :
  listedProperties s !! pid = None ->
  delistProperty env pid s = Abort (AssertFailed "Property not listed").
Proof.
  intros Hp. unfold delistProperty. run_method. rewrite Hp.
  rewrite bool_decide_eq_false_2; [reflexivity |]. intros [? ?]; discriminate.
Qed.

Lemma delistProperty_Some env pid s p :
  listedProperties s !! pid = Some p ->
  delistProperty env pid s =
    if bool_decide (Txn_sender env = ownerAddress p) then
      if bool_decide (availableShares p = totalShares p) then
        Ok (tt, Build_State (delete pid (listedProperties s)) (ledger s))
      else Abort (AssertFailed "Cannot delist property with sold shares")
    else Abort (AssertFailed "Only the owner can delist").
Proof.
  intros Hp. unfold delistProperty. run_method.
  rewrite bool_decide_eq_true_2 by (rewrite Hp; eauto).
  cbv beta iota. rewrite Hp.
  repeat case_bool_decide; reflexivity.
Qed.

Lemma delistProperty_Ok env pid s u s' :
  delistProperty env pid s = Ok (u, s') <->
  exists p, listedProperties s !! pid = Some p /\
            Txn_sender env = ownerAddress p /\
            availableShares p = totalShares p /\
            s' = Build_State (delete pid (listedProperties s)) (ledger s).
Proof.
  destruct (listedProperties s !! pid) as [p|] eqn:Hp.
  - rewrite (delistProperty_Some _ _ _ _ Hp). split.
    + repeat case_bool_decide; try discriminate. intros [= <-]. eauto.
    + intros (q & [= <-] & Ho & Ha & ->).
      rewrite !bool_decide_eq_true_2 by assumption. destruct u. reflexivity.
  - rewrite (delistProperty_None _ _ _ Hp). split; [discriminate |].
    intros (q & ? & _); discriminate.
Qed.

(** *** purchaseFromLister *)

Lemma purchaseFromLister_None env pid shares payment s :
  listedProperties s !! pid = None ->
  is_ok (purchaseFromLister env pid shares payment s) = false.
Proof.
  intros Hp. unfold purchaseFromLister. run_method.
  destruct (0 <? shares); [| reflexivity].
  rewrite bool_decide_eq_false_2; [reflexivity |].
  rewrite Hp. intros [? ?]; discriminate.
Qed.

Lemma purchaseFromLister_Some env pid shares payment s p :
  listedProperties s !! pid = Some p ->
  purchaseFromLister env pid shares payment s =
    if 0 <? shares then
      match u64_mul shares (pricePerShare p) with
      | Abort e => Abort e
      | Ok price =>
        if payment_matches env payment price then
          if shares <=? availableShares p then
            match itxn_submitGroup (Global_currentApplicationAddress env)
                    (purchase_group env p shares payment) (ledger s) with
            | None => Abort InnerTxnRejected
            | Some l' =>
              Ok (true, Build_State
                          (<[pid := with_availableShares p (availableShares p - shares)]>
                             (listedProperties s)) l')
            end
          else Abort (AssertFailed "Not enough shares")
        else Abort MatchFailed
      end
    else Abort (AssertFailed "Must purchase at least one share").
Proof.
  intros Hp. unfold purchaseFromLister, purchase_group. run_method.
  destruct (0 <? shares); [| reflexivity].
  rewrite bool_decide_eq_true_2 by (rewrite Hp; eauto).
  cbv beta iota. rewrite Hp.
  destruct (u64_mul shares (pricePerShare p)) as [price|e]; [| reflexivity].
  destruct (payment_matches env payment price); [| reflexivity].
  destruct (Z.leb_spec shares (availableShares p)) as [Hle|Hgt]; [| reflexivity].
  destruct (itxn_submitGroup _ _ _) as [l'|]; [| reflexivity].
  cbn [listedProperties ledger]. rewrite (u64_sub_le _ _ Hle).
  cbn [listedProperties ledger]. rewrite Hp. reflexivity.
Qed.

Lemma purchaseFromLister_Ok env pid shares payment s b s' :
  purchaseFromLister env pid shares payment s = Ok (b, s') <->
  exists p l',
    listedProperties s !! pid = Some p /\
    0 < shares /\
    shares * pricePerShare p <= MAX_UINT64 /\
    payment_matches env payment (shares * pricePerShare p) = true /\
    shares <= availableShares p /\
    itxn_submitGroup (Global_currentApplicationAddress env)
      (purchase_group env p shares payment) (ledger s) = Some l' /\
    b = true /\
    s' = Build_State
           (<[pid := with_availableShares p (availableShares p - shares)]>
              (listedProperties s)) l'.
Proof.
  destruct (listedProperties s !! pid) as [p|] eqn:Hp.
  - rewrite (purchaseFromLister_Some _ _ _ _ _ _ Hp). split.
    + destruct (Z.ltb_spec 0 shares); [| discriminate].
      destruct (u64_mul shares (pricePerShare p)) as [price|e] eqn:Hm; [| discriminate].
      apply u64_mul_Ok in Hm as [Hm ->].
      destruct (payment_matches _ _ _) eqn:Hpay; [| discriminate].
      destruct (Z.leb_spec shares (availableShares p)); [| discriminate].
      destruct (itxn_submitGroup _ _ _) as [l'|] eqn:Hg; [| discriminate].
      intros [= <- <-]. exists p, l'. repeat split; assumption.
    + intros (q & l' & [= <-] & Hpos & Hm & Hpay & Hle & Hg & -> & ->).
      destruct (Z.ltb_spec 0 shares); [| lia].
      replace (u64_mul shares (pricePerShare p)) with (Ok (shares * pricePerShare p))
        by (symmetry; apply u64_mul_Ok; auto).
      rewrite Hpay. destruct (Z.leb_spec shares (availableShares p)); [| lia].
      rewrite Hg. reflexivity.
  - split.
    + intros Hok. pose proof (purchaseFromLister_None env pid shares payment s Hp) as Hn.
      rewrite Hok in Hn. discriminate.
    + intros (q & l' & ? & _); discriminate.
Qed.

(** *** createPropertyListing *)

Lemma createPropertyListing_Ok env mbrPayment propertyAddress shares price s id s' :
  createPropertyListing env mbrPayment propertyAddress shares price s = Ok (id, s') <->
  exists cost l',
    0 < shares /\ 0 < price /\
    boxMbrCost propertyAddress = Ok cost /\
    cost <= pay_amount mbrPayment /\
    pay_receiver mbrPayment = Global_currentApplicationAddress env /\
    pay_sender mbrPayment = Txn_sender env /\
    itxn_assetConfig (Global_currentApplicationAddress env)
      (propertyAssetConfig env propertyAddress shares) (ledger s) = Some (id, l') /\
    s' = Build_State
           (<[id := {| address := propertyAddress;
                       totalShares := shares;
                       availableShares := shares;
                       pricePerShare := price;
                       propertyAssetId := id;
                       ownerAddress := Txn_sender env |}]> (listedProperties s)) l'.
Proof.
  unfold createPropertyListing. run_method.
  destruct (Z.ltb_spec 0 shares) as [Hs|Hs];
    [| split; [discriminate | intros (? & ? & ? & _); lia]].
  destruct (Z.ltb_spec 0 price) as [Hp|Hp];
    [| split; [discriminate | intros (? & ? & ? & ? & _); lia]].
  destruct (boxMbrCost propertyAddress) as [cost|e] eqn:Hc;
    [| split; [discriminate | intros (? & ? & ? & ? & ? & _); discriminate]].
  destruct (Z.leb_spec cost (pay_amount mbrPayment)) as [Ha|Ha];
    [| split; [discriminate | intros (? & ? & ? & ? & [= <-] & ? & _); lia]].
  case_bool_decide as Hr;
    [| split; [discriminate | intros (? & ? & ? & ? & ? & ? & ? & _); contradiction]].
  case_bool_decide as Hsd;
    [| split; [discriminate | intros (? & ? & ? & ? & ? & ? & ? & ? & _); contradiction]].
  destruct (itxn_assetConfig _ _ _) as [[id0 l0]|] eqn:Hi.
  - cbn [listedProperties ledger]. split.
    + intros [= <- <-]. exists cost, l0. repeat split; assumption.
    + intros (c & l' & _ & _ & _ & _ & _ & _ & [= <- <-] & ->). reflexivity.
  - split; [discriminate |].
    intros (c & l' & _ & _ & _ & _ & _ & _ & ? & _); discriminate.
Qed.

End MethodSpecs.

(** ** Calls and invariants *)

Section Invariants.
Context {L : Type} `{Ledger L}.

Implicit Types (s : State L) (env : CallEnv) (p : PropertyStruct).

Lemma exec_Ok env c s r s' : exec env c s = Ok (r, s') -> call_effect env c s s'.
Proof.
  destruct c as [mbr a n pr | pid n pay | pid | pid]; unfold exec, bind, ret.
  - destruct (createPropertyListing env mbr a n pr s) as [[id s1]|e] eqn:Hc; [| discriminate].
    intros [= _ <-]. apply createPropertyListing_Ok in Hc.
    destruct Hc as (cost & l' & ? & ? & ? & ? & ? & ? & ? & ->).
    exists id, l'. repeat split; assumption.
  - destruct (purchaseFromLister env pid n pay s) as [[b s1]|e] eqn:Hc; [| discriminate].
    intros [= _ <-]. apply purchaseFromLister_Ok in Hc.
    destruct Hc as (p & l' & ? & ? & ? & ? & ? & ? & ? & ->).
    exists p, l'. repeat split; (assumption || lia).
  - destruct (delistProperty env pid s) as [[u s1]|e] eqn:Hc; [| discriminate].
    intros [= _ <-]. apply delistProperty_Ok in Hc.
    destruct Hc as (p & ? & ? & ? & ->).
    exists p. repeat split; assumption.
  - destruct (listedProperties s !! pid) as [p|] eqn:Hp.
    + rewrite (getPropertyInfo_Some _ _ _ Hp). intros [= _ <-]. reflexivity.
    + rewrite (getPropertyInfo_None _ _ Hp). discriminate.
Qed.

Lemma commit_exec env c s :
  commit s (exec env c s) = s \/ call_effect env c s (commit s (exec env c s)).
Proof.
  destruct (exec env c s) as [[r s']|e] eqn:He; cbn.
  - right. eapply exec_Ok; eassumption.
  - left. reflexivity.
Qed.

Lemma call_effect_shares_bounded env c s s' :
  call_effect env c s s' -> shares_bounded s -> shares_bounded s'.
Proof.
  destruct c as [mbr a n pr | pid n pay | pid | pid]; cbn.
  - intros (id & l' & Hn & _ & _ & ->) Hs k q. cbn.
    destruct (decide (id = k)) as [->|Hne].
    + rewrite lookup_insert_eq. intros [= <-]. cbn. lia.
    + rewrite lookup_insert_ne by assumption. apply Hs.
  - intros (p & l' & Hp & Hn & _ & ->) Hs k q. cbn.
    destruct (decide (pid = k)) as [->|Hne].
    + rewrite lookup_insert_eq. intros [= <-]. cbn. specialize (Hs _ _ Hp). lia.
    + rewrite lookup_insert_ne by assumption. apply Hs.
  - intros (p & Hp & _ & ->) Hs k q. cbn.
    destruct (decide (pid = k)) as [->|Hne].
    + rewrite lookup_delete_eq. discriminate.
    + rewrite lookup_delete_ne by assumption. apply Hs.
  - intros ->. trivial.
Qed.

Lemma apply_event_shares_bounded s ev :
  shares_bounded s -> shares_bounded (apply_event s ev).
Proof.
  destruct ev as [env c | l']; cbn.
  - destruct (commit_exec env c s) as [-> | He]; [trivial |].
    eapply call_effect_shares_bounded; eassumption.
  - trivial.
Qed.

Lemma call_effect_advances `{!LedgerLaws L} env c s s' :
  call_effect env c s s' -> ledger_advances (ledger s) (ledger s').
Proof.
  destruct c as [mbr a n pr | pid n pay | pid | pid]; cbn.
  - intros (id & l' & _ & _ & Hi & ->) j. cbn. eapply assetConfig_keeps; eassumption.
  - intros (p & l' & _ & _ & Hg & ->) j. cbn. eapply submitGroup_keeps; eassumption.
  - intros (p & _ & _ & ->) j. trivial.
  - intros -> j. trivial.
Qed.

Lemma apply_event_advances `{!LedgerLaws L} s ev :
  valid_event s ev -> ledger_advances (ledger s) (ledger (apply_event s ev)).
Proof.
  destruct ev as [env c | l']; cbn.
  - intros _. destruct (commit_exec env c s) as [-> | He]; [intros j; trivial |].
    eapply call_effect_advances; eassumption.
  - trivial.
Qed.

Lemma call_effect_keys_allocated `{!LedgerLaws L} env c s s' :
  call_effect env c s s' -> keys_allocated s -> keys_allocated s'.
Proof.
  intros He Hs k. pose proof (call_effect_advances _ _ _ _ He) as Hadv.
  destruct c as [mbr a n pr | pid n pay | pid | pid]; cbn in He.
  - destruct He as (id & l' & _ & _ & Hi & ->). cbn in *.
    destruct (decide (id = k)) as [<-|Hne].
    + intros _. eapply assetConfig_allocated; eassumption.
    + rewrite lookup_insert_ne by assumption. intros Hk. apply Hadv, Hs, Hk.
  - destruct He as (p & l' & Hp & _ & _ & ->). cbn in *.
    destruct (decide (pid = k)) as [<-|Hne].
    + intros _. apply Hadv, Hs. eauto.
    + rewrite lookup_insert_ne by assumption. intros Hk. apply Hadv, Hs, Hk.
  - destruct He as (p & Hp & _ & ->). cbn in *.
    destruct (decide (pid = k)) as [<-|Hne].
    + rewrite lookup_delete_eq. intros [? ?]; discriminate.
    + rewrite lookup_delete_ne by assumption. apply Hs.
  - subst s'. apply Hs.
Qed.

Lemma apply_event_keys_allocated `{!LedgerLaws L} s ev :
  valid_event s ev -> keys_allocated s -> keys_allocated (apply_event s ev).
Proof.
  destruct ev as [env c | l']; cbn.
  - intros _ Hs. destruct (commit_exec env c s) as [-> | He]; [trivial |].
    eapply call_effect_keys_allocated; eassumption.
  - intros Hadv Hs k Hk. apply Hadv, Hs, Hk.
Qed.

Lemma reachable_shares_bounded s : reachable s -> shares_bounded s.
Proof.
  induction 1 as [l | s ev _ IH _].
  - intros k p. cbn. rewrite lookup_empty. discriminate.
  - apply apply_event_shares_bounded, IH.
Qed.

Lemma reachable_keys_allocated `{!LedgerLaws L} s : reachable s -> keys_allocated s.
Proof.
  induction 1 as [l | s ev _ IH Hv].
  - intros k. cbn. rewrite lookup_empty. intros [? ?]; discriminate.
  - apply apply_event_keys_allocated; assumption.
Qed.

Lemma reachable_run s evs : reachable s -> valid_trace s evs -> reachable (run s evs).
Proof.
  revert s. induction evs as [| ev evs IH]; intros s Hs; cbn.
  - trivial.
  - intros [Hv Hrest]. apply IH; [| assumption]. constructor; assumption.
Qed.

Lemma call_effect_records_well_formed env c s s' :
  call_effect env c s s' -> records_well_formed s -> records_well_formed s'.
Proof.
  destruct c as [mbr a n pr | pid n pay | pid | pid]; cbn.
  - intros (id & l' & Hn & Hpr & _ & ->) Hs k q. cbn.
    destruct (decide (id = k)) as [->|Hne].
    + rewrite lookup_insert_eq. intros [= <-]. cbn. auto.
    + rewrite lookup_insert_ne by assumption. apply Hs.
  - intros (p & l' & Hp & _ & _ & ->) Hs k q. cbn.
    destruct (decide (pid = k)) as [->|Hne].
    + rewrite lookup_insert_eq. intros [= <-]. cbn. apply Hs, Hp.
    + rewrite lookup_insert_ne by assumption. apply Hs.
  - intros (p & Hp & _ & ->) Hs k q. cbn.
    destruct (decide (pid = k)) as [->|Hne].
    + rewrite lookup_delete_eq. discriminate.
    + rewrite lookup_delete_ne by assumption. apply Hs.
  - intros ->. trivial.
Qed.

(** Every stored record is keyed by its asset id and has a positive supply
    and a positive price. *)
Lemma reachable_records_well_formed s : reachable s -> records_well_formed s.
Proof.
  induction 1 as [l | s ev _ IH _].
  - intros k p. cbn. rewrite lookup_empty. discriminate.
  - destruct ev as [env c | l']; cbn.
    + destruct (commit_exec env c s) as [-> | He]; [exact IH |].
      eapply call_effect_records_well_formed; eassumption.
    + exact IH.
Qed.

Lemma run_advances `{!LedgerLaws L} evs : forall s,
  valid_trace s evs -> ledger_advances (ledger s) (ledger (run s evs)).
Proof.
  induction evs as [| ev evs IH]; intros s; cbn.
  - intros _ j. trivial.
  - intros [Hv Hrest] j Hj. apply IH; [assumption |].
    apply apply_event_advances; assumption.
Qed.

End Invariants.

(** ** One record along a trace *)

Section Records.
Context {L : Type} `{Ledger L} `{!LedgerLaws L}.

Implicit Types (s : State L) (env : CallEnv) (p : PropertyStruct).

Lemma with_availableShares_id p : with_availableShares p (availableShares p) = p.
Proof. destruct p; reflexivity. Qed.

Lemma with_availableShares_twice p n m :
  with_availableShares (with_availableShares p n) m = with_availableShares p m.
Proof. reflexivity. Qed.

Lemma same_terms_with_availableShares p n : same_terms p (with_availableShares p n).
Proof. repeat split. Qed.

Lemma exec_purchase env k n payment s :
  exec env (PurchaseFromLister k n payment) s =
    match purchaseFromLister env k n payment s with
    | Ok (b, s') => Ok (RBool b, s')
    | Abort e => Abort e
    end.
Proof.
  unfold exec, bind, ret.
  destruct (purchaseFromLister env k n payment s) as [[b s']|e]; reflexivity.
Qed.

(** What one event does to the record of [pid]: it is left alone, it loses
    exactly the shares the event sells, or it is deleted; and no event
    creates a record under an id that the ledger has already given out. *)
Lemma event_record s ev pid :
  valid_event s ev -> shares_bounded s ->
  asset_allocated (ledger s) pid = true ->
  match listedProperties s !! pid with
  | None =>
      listedProperties (apply_event s ev) !! pid = None /\
      shares_bought pid s ev = 0
  | Some p =>
      0 <= shares_bought pid s ev <= availableShares p /\
      (listedProperties (apply_event s ev) !! pid = None \/
       listedProperties (apply_event s ev) !! pid =
         Some (with_availableShares p (availableShares p - shares_bought pid s ev)))
  end.
Proof.
  intros Hv Hb Hpid.
  assert (Hsame : listedProperties (apply_event s ev) !! pid = listedProperties s !! pid ->
                  shares_bought pid s ev = 0 ->
                  match listedProperties s !! pid with
                  | None =>
                      listedProperties (apply_event s ev) !! pid = None /\
                      shares_bought pid s ev = 0
                  | Some p =>
                      0 <= shares_bought pid s ev <= availableShares p /\
                      (listedProperties (apply_event s ev) !! pid = None \/
                       listedProperties (apply_event s ev) !! pid =
                         Some (with_availableShares p
                                 (availableShares p - shares_bought pid s ev)))
                  end).
  { intros -> ->. destruct (listedProperties s !! pid) as [p|] eqn:Hp; [| auto].
    specialize (Hb _ _ Hp). split; [lia |]. right.
    rewrite Z.sub_0_r, with_availableShares_id. reflexivity. }
  destruct ev as [env [mbr a n pr | k n pay | k | k] | l'].
  - (* createPropertyListing *)
    apply Hsame; [| reflexivity]. cbn [apply_event].
    destruct (exec env (CreatePropertyListing mbr a n pr) s) as [[r s']|e] eqn:He;
      [| reflexivity].
    apply exec_Ok in He. destruct He as (id & l' & _ & _ & Hi & ->). cbn.
    apply lookup_insert_ne. intros ->.
    apply assetConfig_fresh in Hi. congruence.
  - (* purchaseFromLister *)
    cbn [apply_event shares_bought]. rewrite exec_purchase.
    destruct (purchaseFromLister env k n pay s) as [[b s']|e] eqn:He; cbn [is_ok commit].
    + apply purchaseFromLister_Ok in He.
      destruct He as (p & l' & Hp & Hn & _ & _ & Hle & _ & _ & ->). cbn.
      case_bool_decide as Hk; cbn [andb].
      * subst k. rewrite Hp, lookup_insert_eq. split; [lia | right; reflexivity].
      * rewrite lookup_insert_ne by assumption.
        destruct (listedProperties s !! pid) as [q|] eqn:Hq; [| auto].
        specialize (Hb _ _ Hq). split; [lia |]. right.
        rewrite Z.sub_0_r, with_availableShares_id. reflexivity.
    + rewrite andb_false_r.
      destruct (listedProperties s !! pid) as [q|] eqn:Hq; [| auto].
      specialize (Hb _ _ Hq). split; [lia |]. right.
      rewrite Z.sub_0_r, with_availableShares_id. reflexivity.
  - (* delistProperty *)
    cbn [apply_event shares_bought].
    destruct (exec env (DelistProperty k) s) as [[r s']|e] eqn:He; cbn [commit].
    + apply exec_Ok in He. destruct He as (p & Hp & _ & ->). cbn.
      destruct (decide (k = pid)) as [->|Hne].
      * rewrite Hp, lookup_delete_eq. specialize (Hb _ _ Hp). split; [lia | left; reflexivity].
      * rewrite lookup_delete_ne by assumption.
        destruct (listedProperties s !! pid) as [q|] eqn:Hq; [| auto].
        specialize (Hb _ _ Hq). split; [lia |]. right.
        rewrite Z.sub_0_r, with_availableShares_id. reflexivity.
    + destruct (listedProperties s !! pid) as [q|] eqn:Hq; [| auto].
      specialize (Hb _ _ Hq). split; [lia |]. right.
      rewrite Z.sub_0_r, with_availableShares_id. reflexivity.
  - (* getPropertyInfo *)
    apply Hsame; [| reflexivity]. cbn [apply_event].
    destruct (exec env (GetPropertyInfo k) s) as [[r s']|e] eqn:He; [| reflexivity].
    apply exec_Ok in He. cbn in He. subst s'. reflexivity.
  - (* the ledger moves on *)
    apply Hsame; reflexivity.
Qed.

(** Along a trace: a missing record stays missing, and an existing record
    keeps its terms and has lost exactly the shares sold so far, which never
    exceed what was available. *)
Lemma trace_record evs : forall s pid,
  valid_trace s evs -> shares_bounded s ->
  asset_allocated (ledger s) pid = true ->
  match listedProperties s !! pid with
  | None =>
      listedProperties (run s evs) !! pid = None /\ shares_sold pid s evs = 0
  | Some p =>
      0 <= shares_sold pid s evs <= availableShares p /\
      (listedProperties (run s evs) !! pid = None \/
       listedProperties (run s evs) !! pid =
         Some (with_availableShares p (availableShares p - shares_sold pid s evs)))
  end.
Proof.
  induction evs as [| ev evs IH]; intros s pid Hv Hb Hpid.
  - cbn. destruct (listedProperties s !! pid) as [p|] eqn:Hp; [| auto].
    specialize (Hb _ _ Hp). split; [lia |]. right.
    rewrite Z.sub_0_r, with_availableShares_id. reflexivity.
  - destruct Hv as [Hev Hrest]. cbn [run shares_sold].
    pose proof (event_record s ev pid Hev Hb Hpid) as Hstep.
    pose proof (apply_event_shares_bounded s ev Hb) as Hb'.
    pose proof (apply_event_advances s ev Hev pid Hpid) as Hpid'.
    specialize (IH (apply_event s ev) pid Hrest Hb' Hpid').
    destruct (listedProperties s !! pid) as [p|] eqn:Hp.
    + destruct Hstep as [Hbought [Hnone | Hsome]].
      * rewrite Hnone in IH. destruct IH as [Hgone Hsold].
        rewrite Hsold. split; [lia | left; assumption].
      * rewrite Hsome in IH. cbn in IH. destruct IH as [Hsold Hfin].
        split; [lia |]. destruct Hfin as [Hgone | Hstill]; [left; assumption |].
        right. rewrite Hstill, with_availableShares_twice. do 2 f_equal. lia.
    + destruct Hstep as [Hnone Hbought]. rewrite Hnone in IH.
      destruct IH as [Hgone Hsold]. rewrite Hbought, Hsold. auto.
Qed.

(** Two listings never share an id, whatever happens between them. *)
Lemma listing_ids_distinct env1 mbr1 a1 n1 pr1 s id1 s1 evs env2 mbr2 a2 n2 pr2 id2 s2 :
  createPropertyListing env1 mbr1 a1 n1 pr1 s = Ok (id1, s1) ->
  valid_trace s1 evs ->
  createPropertyListing env2 mbr2 a2 n2 pr2 (run s1 evs) = Ok (id2, s2) ->
  id1 <> id2.
Proof.
  intros H1 Hv H2 ->.
  apply createPropertyListing_Ok in H1.
  destruct H1 as (c1 & l1 & _ & _ & _ & _ & _ & _ & Hi1 & ->).
  apply createPropertyListing_Ok in H2.
  destruct H2 as (c2 & l2 & _ & _ & _ & _ & _ & _ & Hi2 & _).
  apply assetConfig_allocated in Hi1. apply assetConfig_fresh in Hi2.
  pose proof (run_advances evs _ Hv id2 Hi1) as Hlater. congruence.
Qed.

End Records.

(** ** The reference ledger obeys the laws *)

Lemma ref_itxn_counter app t l l' :
  ref_itxn app t l = Some l' -> txnCounter l' = txnCounter l.
Proof.
  destruct t as [f|f]; cbn.
  - unfold ref_assetTransfer.
    destruct (holdings l !! (app, xferAsset f)) as [h|]; [| discriminate].
    case_bool_decide; [| discriminate].
    destruct (_ !! (assetReceiver f, xferAsset f)); [| discriminate].
    intros [= <-]. reflexivity.
  - unfold ref_payment. case_bool_decide; [| discriminate].
    intros [= <-]. reflexivity.
Qed.

Lemma ref_submitGroup_counter app g : forall l l',
  ref_submitGroup app g l = Some l' -> txnCounter l' = txnCounter l.
Proof.
  induction g as [| t g IH]; intros l l'; cbn.
  - intros [= <-]. reflexivity.
  - destruct (ref_itxn app t l) as [l1|] eqn:Ht; [| discriminate].
    intros Hg. rewrite (IH _ _ Hg). eapply ref_itxn_counter; eassumption.
Qed.

Lemma ref_assetConfig_counter app f l id l' :
  ref_assetConfig app f l = Some (id, l') ->
  id = txnCounter l + 1 /\ txnCounter l' = id.
Proof.
  unfold ref_assetConfig. destruct (_ && _); [| discriminate].
  intros [= <- <-]. split; reflexivity.
Qed.

#[global] Instance RefLedger_laws : LedgerLaws RefLedger.
Proof.
  split; cbn; unfold ref_allocated.
  - intros app f l id l' Hc. apply ref_assetConfig_counter in Hc as [-> _].
    apply bool_decide_eq_false_2. lia.
  - intros app f l id l' Hc. apply ref_assetConfig_counter in Hc as [_ ->].
    apply bool_decide_eq_true_2. lia.
  - intros app f l id l' j Hc Hj. apply ref_assetConfig_counter in Hc as [-> ->].
    apply bool_decide_eq_true in Hj. apply bool_decide_eq_true_2. lia.
  - intros app g l l' j Hg Hj. apply ref_submitGroup_counter in Hg.
    apply bool_decide_eq_true in Hj. apply bool_decide_eq_true_2. lia.
Qed.

(** ** The scenario states *)

Lemma reachable_s_init : reachable s_init.
Proof. apply reachable_init. Qed.

Lemma reachable_s_listed : reachable s_listed.
Proof. apply reachable_step; [apply reachable_s_init | exact I]. Qed.

Lemma reachable_s_ready : reachable s_ready.
Proof.
  apply reachable_step; [apply reachable_s_listed |].
  intros j. cbn. unfold ref_allocated.
  replace (txnCounter (ledger s_listed)) with 1001 by (vm_compute; reflexivity).
  replace (txnCounter (buyer_ready (ledger s_listed))) with 1001 by (vm_compute; reflexivity).
  trivial.
Qed.

Lemma reachable_s_bought : reachable s_bought.
Proof. apply reachable_step; [apply reachable_s_ready | exact I]. Qed.

Lemma s_listed_record : listedProperties s_listed !! 1001 = Some main_st_record.
Proof. vm_compute. reflexivity. Qed.

Lemma s_ready_record : listedProperties s_ready !! 1001 = Some main_st_record.
Proof. vm_compute. reflexivity. Qed.

Lemma s_bought_record :
  listedProperties s_bought !! 1001 = Some (with_availableShares main_st_record 90).
Proof. vm_compute. reflexivity. Qed.

(** The buyer holds the ten shares and the lister was paid. *)
Lemma s_bought_ledger :
  holdings (ledger s_bought) !! (buyer, 1001) = Some 10 /\
  holdings (ledger s_bought) !! (app_addr, 1001) = Some 90 /\
  balance (ledger s_bought) lister = 10000000.
Proof. vm_compute. repeat split. Qed.

(** A second listing, of another address, gets another id. *)
Lemma s_two_listings_ids :
  exec (env_of lister) list_long_address s_listed = Ok (RUint64 1002, s_two_listings) /\
  listedProperties s_two_listings !! 1001 = Some main_st_record /\
  address <$> listedProperties s_two_listings !! 1002 = Some long_address.
Proof. split; [| split]; vm_compute; reflexivity. Qed.

(** Afterwards the lister cannot delist, and 91 shares cannot be bought. *)
Lemma s_bought_refusals :
  delistProperty (env_of lister) 1001 s_bought =
    Abort (AssertFailed "Cannot delist property with sold shares") /\
  purchaseFromLister (env_of buyer) 1001 91 (plain_payment buyer 91000000) s_bought =
    Abort (AssertFailed "Not enough shares").
Proof. vm_compute. split; reflexivity. Qed.

(** * The claims *)

(** C1. Share accounting of purchases. For a record [p] stored under [pid]:
    a successful [purchaseFromLister] for [n] shares buys at least one share
    and leaves the record with exactly [n] fewer available shares; a request
    for more shares than are available fails and commits nothing. In a state
    the application can be in, every stored record has
    [0 <= availableShares <= totalShares], now and after any further events,
    and along any sequence of further events the shares of [pid] sold by the
    successful purchases never exceed [totalShares p], the record, while it
    exists, having lost exactly the shares sold. *)
Theorem purchase_accounting {L : Type} `{Ledger L} `{!LedgerLaws L}
    (s : State L) (pid : Z) (p : PropertyStruct) :
  listedProperties s !! pid = Some p ->
  (forall env n payment b s',
     purchaseFromLister env pid n payment s = Ok (b, s') ->
     0 < n /\
     listedProperties s' !! pid =
       Some (with_availableShares p (availableShares p - n))) /\
  (forall env n payment,
     availableShares p < n ->
     is_ok (purchaseFromLister env pid n payment s) = false /\
     commit s (purchaseFromLister env pid n payment s) = s) /\
  (reachable s ->
   shares_bounded s /\
   forall evs, valid_trace s evs ->
     shares_bounded (run s evs) /\
     0 <= shares_sold pid s evs <= totalShares p /\
     forall q, listedProperties (run s evs) !! pid = Some q ->
       availableShares q = availableShares p - shares_sold pid s evs).
Proof.
  intros Hp. split; [| split].
  - intros env n payment b s' Hok. apply purchaseFromLister_Ok in Hok.
    destruct Hok as (q & l' & Hq & Hn & _ & _ & _ & _ & _ & ->).
    split; [exact Hn |]. cbn. rewrite lookup_insert_eq. congruence.
  - intros env n payment Hgt.
    rewrite (purchaseFromLister_Some _ _ _ _ _ _ Hp).
    destruct (0 <? n); [| split; reflexivity].
    destruct (u64_mul n (pricePerShare p)) as [v|e]; [| split; reflexivity].
    destruct (payment_matches env payment v); [| split; reflexivity].
    destruct (Z.leb_spec n (availableShares p)); [lia | split; reflexivity].
  - intros Hr.
    pose proof (reachable_shares_bounded s Hr) as Hb.
    pose proof (reachable_keys_allocated s Hr) as Hk.
    split; [exact Hb |]. intros evs Hv.
    pose proof (trace_record evs s pid Hv Hb (Hk pid (ex_intro _ p Hp))) as Ht.
    rewrite Hp in Ht. destruct Ht as [Hsold Hfin].
    split; [apply reachable_shares_bounded, reachable_run; assumption |].
    split; [specialize (Hb _ _ Hp); lia |].
    intros q Hq. destruct Hfin as [Hnone | Hsome]; [congruence |].
    rewrite Hsome in Hq. injection Hq as <-. reflexivity.
Qed.

Lemma purchase_accounting_witness :
  listedProperties s_ready !! 1001 = Some main_st_record /\
  reachable s_ready /\
  valid_trace s_ready [EvCall (env_of buyer) buy_ten] /\
  shares_sold 1001 s_ready [EvCall (env_of buyer) buy_ten] = 10 /\
  0 <= shares_sold 1001 s_ready [EvCall (env_of buyer) buy_ten] <= 100.
Proof.
  split; [exact s_ready_record |].
  split; [exact reachable_s_ready |].
  split; [cbn; auto |].
  split; [vm_compute; reflexivity |].
  destruct (purchase_accounting s_ready 1001 main_st_record s_ready_record)
    as (_ & _ & Hreach).
  destruct (Hreach reachable_s_ready) as [_ Htrace].
  destruct (Htrace [EvCall (env_of buyer) buy_ten]) as (_ & Hsold & _).
  - cbn. auto.
  - exact Hsold.
Defined.

(** C2. The payment of a purchase. [purchaseFromLister] succeeds only if
    the payment's amount is exactly [shares * pricePerShare] of the record,
    its receiver is the application account, its sender is the caller, and
    its close-remainder-to and rekey-to are the zero address. With a payment
    that breaks one of these, the call fails (at the [assertMatch], when the
    earlier checks pass) and commits nothing. *)
Theorem purchase_payment_checked {L : Type} `{Ledger L}
    (env : CallEnv) (pid n : Z) (payment : PaymentTxn) (s : State L) :
  (forall b s',
     purchaseFromLister env pid n payment s = Ok (b, s') ->
     exists p, listedProperties s !! pid = Some p /\
       pay_amount payment = n * pricePerShare p /\
       pay_receiver payment = Global_currentApplicationAddress env /\
       pay_sender payment = Txn_sender env /\
       pay_closeRemainderTo payment = Global_zeroAddress /\
       pay_rekeyTo payment = Global_zeroAddress) /\
  (forall p,
     listedProperties s !! pid = Some p ->
     pay_amount payment <> n * pricePerShare p \/
     pay_receiver payment <> Global_currentApplicationAddress env \/
     pay_sender payment <> Txn_sender env \/
     pay_closeRemainderTo payment <> Global_zeroAddress \/
     pay_rekeyTo payment <> Global_zeroAddress ->
     is_ok (purchaseFromLister env pid n payment s) = false /\
     commit s (purchaseFromLister env pid n payment s) = s /\
     (0 < n -> n * pricePerShare p <= MAX_UINT64 ->
      purchaseFromLister env pid n payment s = Abort MatchFailed)).
Proof.
  split.
  - intros b s' Hok. apply purchaseFromLister_Ok in Hok.
    destruct Hok as (p & l' & Hp & _ & _ & Hm & _).
    exists p. split; [assumption |]. apply payment_matches_spec, Hm.
  - intros p Hp Hbad.
    assert (Hm : payment_matches env payment (n * pricePerShare p) = false).
    { destruct (payment_matches env payment (n * pricePerShare p)) eqn:Hm; [| reflexivity].
      apply payment_matches_spec in Hm. tauto. }
    rewrite (purchaseFromLister_Some _ _ _ _ _ _ Hp).
    destruct (Z.ltb_spec 0 n); [| repeat split; lia].
    destruct (u64_mul n (pricePerShare p)) as [v|e] eqn:Hv.
    + apply u64_mul_Ok in Hv as [_ ->]. rewrite Hm. repeat split.
    + repeat split. intros _ Hle.
      assert (Hx : u64_mul n (pricePerShare p) = Ok (n * pricePerShare p))
        by (apply u64_mul_Ok; auto).
      congruence.
Qed.

Lemma purchase_payment_checked_witness :
  listedProperties s_ready !! 1001 = Some main_st_record /\
  purchaseFromLister (env_of buyer) 1001 10 (plain_payment buyer 9999999) s_ready =
    Abort MatchFailed.
Proof.
  split; [exact s_ready_record |].
  destruct (purchase_payment_checked (env_of buyer) 1001 10
              (plain_payment buyer 9999999) s_ready) as [_ Hbad].
  destruct (Hbad main_st_record s_ready_record) as (_ & _ & Hmatch).
  - left. vm_compute. discriminate.
  - apply Hmatch; vm_compute; congruence.
Defined.

(** C3. [delistProperty] succeeds exactly when a record is stored under
    [propertyId], the caller is its [ownerAddress] and its [availableShares]
    equal its [totalShares]. On success the record is deleted from the box
    map; when it fails the committed state is the one before the call. *)
Theorem delist_succeeds_iff {L : Type} `{Ledger L}
    (env : CallEnv) (pid : Z) (s : State L) :
  (is_ok (delistProperty env pid s) = true <->
   exists p, listedProperties s !! pid = Some p /\
             Txn_sender env = ownerAddress p /\
             availableShares p = totalShares p) /\
  (forall u s', delistProperty env pid s = Ok (u, s') ->
     listedProperties s' = delete pid (listedProperties s)) /\
  (is_ok (delistProperty env pid s) = false ->
   commit s (delistProperty env pid s) = s).
Proof.
  split; [| split].
  - split.
    + destruct (delistProperty env pid s) as [[u s']|e] eqn:Hd; [| discriminate].
      intros _. apply delistProperty_Ok in Hd.
      destruct Hd as (p & Hp & Ho & Ha & _). eauto.
    + intros (p & Hp & Ho & Ha).
      rewrite (delistProperty_Some _ _ _ _ Hp).
      rewrite !bool_decide_eq_true_2 by assumption. reflexivity.
  - intros u s' Hd. apply delistProperty_Ok in Hd.
    destruct Hd as (p & _ & _ & _ & ->). reflexivity.
  - destruct (delistProperty env pid s) as [[u s']|e]; [discriminate | reflexivity].
Qed.

Lemma delist_succeeds_iff_witness :
  is_ok (delistProperty (env_of lister) 1001 s_listed) = true /\
  is_ok (delistProperty (env_of buyer) 1001 s_listed) = false /\
  is_ok (delistProperty (env_of lister) 1001 s_bought) = false /\
  commit s_bought (delistProperty (env_of lister) 1001 s_bought) = s_bought.
Proof.
  split; [| split; [| split]].
  - apply (proj1 (delist_succeeds_iff (env_of lister) 1001 s_listed)).
    exists main_st_record. split; [exact s_listed_record |].
    split; reflexivity.
  - vm_compute. reflexivity.
  - vm_compute. reflexivity.
  - apply (proj2 (proj2 (delist_succeeds_iff (env_of lister) 1001 s_bought))).
    vm_compute. reflexivity.
Defined.

(** C4. The record of a listing. A successful [createPropertyListing] had
    [shares > 0] and [pricePerShare > 0] and stores, under the returned id,
    the record with the given address, [totalShares] and [availableShares]
    both equal to [shares], the given price, [propertyAssetId] equal to the
    returned id and [ownerAddress] equal to the caller. With [shares = 0] or
    [pricePerShare = 0] the call fails at its first two assertions, before
    the asset is created, and commits nothing. *)
Theorem listing_record {L : Type} `{Ledger L}
    (env : CallEnv) (mbrPayment : PaymentTxn) (propertyAddress : bytes)
    (shares price : Z) (s : State L) :
  (forall id s',
     createPropertyListing env mbrPayment propertyAddress shares price s = Ok (id, s') ->
     0 < shares /\ 0 < price /\
     listedProperties s' !! id =
       Some {| address := propertyAddress;
               totalShares := shares;
               availableShares := shares;
               pricePerShare := price;
               propertyAssetId := id;
               ownerAddress := Txn_sender env |}) /\
  (shares = 0 ->
   createPropertyListing env mbrPayment propertyAddress shares price s =
     Abort (AssertFailed "Shares must be greater than 0")) /\
  (0 < shares -> price = 0 ->
   createPropertyListing env mbrPayment propertyAddress shares price s =
     Abort (AssertFailed "Price per share must be greater than 0")) /\
  (shares = 0 \/ price = 0 ->
   is_ok (createPropertyListing env mbrPayment propertyAddress shares price s) = false /\
   commit s (createPropertyListing env mbrPayment propertyAddress shares price s) = s).
Proof.
  split; [| split; [| split]].
  - intros id s' Hok. apply createPropertyListing_Ok in Hok.
    destruct Hok as (cost & l' & Hs & Hp & _ & _ & _ & _ & _ & ->).
    split; [assumption |]. split; [assumption |].
    cbn. apply lookup_insert_eq.
  - intros ->. reflexivity.
  - intros Hs ->. unfold createPropertyListing, bind, assert.
    destruct (Z.ltb_spec 0 shares); [reflexivity | lia].
  - intros Hzero.
    destruct (createPropertyListing env mbrPayment propertyAddress shares price s)
      as [[id s']|e] eqn:Hc; [| split; reflexivity].
    apply createPropertyListing_Ok in Hc.
    destruct Hc as (cost & l' & Hs & Hp & _). lia.
Qed.

Lemma listing_record_witness :
  listedProperties s_listed !! 1001 = Some main_st_record /\
  is_ok (createPropertyListing (env_of lister) (plain_payment lister 100000)
           main_st 0 1000000 s_init) = false /\
  is_ok (createPropertyListing (env_of lister) (plain_payment lister 100000)
           main_st 100 0 s_init) = false.
Proof.
  split; [| split].
  - assert (Hc : createPropertyListing (env_of lister) (plain_payment lister 100000)
                   main_st 100 1000000 s_init = Ok (1001, s_listed))
      by (vm_compute; reflexivity).
    exact (proj2 (proj2 (proj1 (listing_record (env_of lister)
             (plain_payment lister 100000) main_st 100 1000000 s_init) _ _ Hc))).
  - apply (proj2 (proj2 (proj2 (listing_record (env_of lister)
             (plain_payment lister 100000) main_st 0 1000000 s_init)))).
    left. reflexivity.
  - apply (proj2 (proj2 (proj2 (listing_record (env_of lister)
             (plain_payment lister 100000) main_st 100 0 s_init)))).
    right. reflexivity.
Defined.

(** C5. The storage cost. The cost that [createPropertyListing] checks is
    [2500 + 400 * (18 + 68 + n)] for an address of [n] bytes, so a longer
    address costs strictly more. A payment below the cost fails the call;
    two payments that both cover the cost and differ only in their amount
    give the same result and the same state, so nothing records a surplus;
    and a payment that covers the cost is accepted: with the other
    preconditions met and the asset created by the ledger, the call
    succeeds. *)
Theorem storage_cost {L : Type} `{Ledger L}
    (env : CallEnv) (mbrPayment : PaymentTxn) (propertyAddress : bytes)
    (shares price : Z) (s : State L) :
  let cost := 2500 + 400 * (18 + 68 + Z.of_nat (length propertyAddress)) in
  (forall c, boxMbrCost propertyAddress = Ok c -> c = cost) /\
  (cost <= MAX_UINT64 -> boxMbrCost propertyAddress = Ok cost) /\
  (forall longer c c',
     (length propertyAddress < length longer)%nat ->
     boxMbrCost propertyAddress = Ok c -> boxMbrCost longer = Ok c' -> c < c') /\
  (pay_amount mbrPayment < cost ->
   is_ok (createPropertyListing env mbrPayment propertyAddress shares price s) = false /\
   (0 < shares -> 0 < price -> cost <= MAX_UINT64 ->
    createPropertyListing env mbrPayment propertyAddress shares price s =
      Abort (AssertFailed "MBR payment amount is insufficient"))) /\
  (forall mbrPayment',
     cost <= pay_amount mbrPayment -> cost <= pay_amount mbrPayment' ->
     pay_receiver mbrPayment' = pay_receiver mbrPayment ->
     pay_sender mbrPayment' = pay_sender mbrPayment ->
     createPropertyListing env mbrPayment' propertyAddress shares price s =
     createPropertyListing env mbrPayment propertyAddress shares price s) /\
  (forall id l',
     cost <= pay_amount mbrPayment -> cost <= MAX_UINT64 ->
     0 < shares -> 0 < price ->
     pay_receiver mbrPayment = Global_currentApplicationAddress env ->
     pay_sender mbrPayment = Txn_sender env ->
     itxn_assetConfig (Global_currentApplicationAddress env)
       (propertyAssetConfig env propertyAddress shares) (ledger s) = Some (id, l') ->
     exists s', createPropertyListing env mbrPayment propertyAddress shares price s
                = Ok (id, s')).
Proof.
  intros cost. split; [| split; [| split; [| split; [| split]]]].
  - intros c Hc. apply boxMbrCost_Ok in Hc as [_ ->]. reflexivity.
  - intros Hle. apply boxMbrCost_Ok. auto.
  - intros longer c c' Hlen Hc Hc'.
    apply boxMbrCost_Ok in Hc as [_ ->]. apply boxMbrCost_Ok in Hc' as [_ ->]. lia.
  - intros Hlt. split.
    + destruct (createPropertyListing env mbrPayment propertyAddress shares price s)
        as [[id s']|e] eqn:Hc; [| reflexivity].
      apply createPropertyListing_Ok in Hc.
      destruct Hc as (c & l' & _ & _ & Hc & Hle & _).
      apply boxMbrCost_Ok in Hc as [_ ->]. subst cost. lia.
    + intros Hs Hp Hmax. unfold createPropertyListing, bind, assert, lift, ret, abort.
      destruct (Z.ltb_spec 0 shares); [| lia].
      destruct (Z.ltb_spec 0 price); [| lia].
      replace (boxMbrCost propertyAddress) with (Ok cost)
        by (symmetry; apply boxMbrCost_Ok; auto).
      destruct (Z.leb_spec cost (pay_amount mbrPayment)); [lia | reflexivity].
  - intros mbrPayment' Ha Ha' Hr Hsd.
    unfold createPropertyListing, bind, assert, lift, ret, abort.
    destruct (0 <? shares); [| reflexivity].
    destruct (0 <? price); [| reflexivity].
    destruct (boxMbrCost propertyAddress) as [c|e] eqn:Hc; [| reflexivity].
    apply boxMbrCost_Ok in Hc as [_ ->]. fold cost.
    destruct (Z.leb_spec cost (pay_amount mbrPayment)); [| lia].
    destruct (Z.leb_spec cost (pay_amount mbrPayment')); [| lia].
    rewrite Hr, Hsd. reflexivity.
  - intros id l' Ha Hmax Hs Hp Hr Hsd Hi. eexists.
    apply createPropertyListing_Ok. exists cost, l'.
    repeat split; try assumption. apply boxMbrCost_Ok. auto.
Qed.

Lemma storage_cost_witness :
  boxMbrCost main_st = Ok 41300 /\
  is_ok (createPropertyListing (env_of lister) (plain_payment lister 41299)
           main_st 100 1000000 s_init) = false /\
  createPropertyListing (env_of lister) (plain_payment lister 41300)
    main_st 100 1000000 s_init =
  createPropertyListing (env_of lister) (plain_payment lister 100000)
    main_st 100 1000000 s_init.
Proof.
  split; [| split].
  - apply (proj1 (proj2 (storage_cost (env_of lister) (plain_payment lister 100000)
             main_st 100 1000000 s_init))).
    vm_compute. discriminate.
  - apply (proj1 (proj2 (proj2 (proj2 (storage_cost (env_of lister)
             (plain_payment lister 41299) main_st 100 1000000 s_init))))).
    vm_compute. reflexivity.
  - apply (proj1 (proj2 (proj2 (proj2 (proj2 (storage_cost (env_of lister)
             (plain_payment lister 100000) main_st 100 1000000 s_init)))))).
    + vm_compute. discriminate.
    + vm_compute. discriminate.
    + reflexivity.
    + reflexivity.
Defined.

(** C6. The minted asset. A successful [createPropertyListing] has
    submitted one asset creation, which returned the id that the call
    returns: its total is [shares], it has 0 decimals, and its manager and
    reserve are the application account. The asset name is the first 32
    bytes of the address: [min 32 (length address)] bytes long, a prefix of
    the address, and the whole address when that has at most 32 bytes. *)
Theorem minted_asset {L : Type} `{Ledger L}
    (env : CallEnv) (mbrPayment : PaymentTxn) (propertyAddress : bytes)
    (shares price : Z) (s : State L) (id : Z) (s' : State L) :
  createPropertyListing env mbrPayment propertyAddress shares price s = Ok (id, s') ->
  exists f,
    itxn_assetConfig (Global_currentApplicationAddress env) f (ledger s)
      = Some (id, ledger s') /\
    total f = shares /\
    decimals f = 0 /\
    manager f = Global_currentApplicationAddress env /\
    reserve f = Global_currentApplicationAddress env /\
    assetName f = take (Nat.min 32 (length propertyAddress)) propertyAddress /\
    length (assetName f) = Nat.min 32 (length propertyAddress) /\
    assetName f `prefix_of` propertyAddress /\
    ((length propertyAddress <= 32)%nat -> assetName f = propertyAddress).
Proof.
  intros Hok. apply createPropertyListing_Ok in Hok.
  destruct Hok as (cost & l' & _ & _ & _ & _ & _ & _ & Hi & ->).
  exists (propertyAssetConfig env propertyAddress shares).
  cbn [ledger propertyAssetConfig total decimals manager reserve assetName].
  unfold truncate_name.
  split; [exact Hi |]. do 4 (split; [reflexivity |]).
  split; [| split; [| split]].
  - destruct (Nat.min_spec 32 (length propertyAddress)) as [[Hlt ->] | [Hge ->]].
    + reflexivity.
    + rewrite !take_ge by lia. reflexivity.
  - apply length_take.
  - apply prefix_take.
  - intros Hle. apply take_ge. exact Hle.
Qed.

Lemma minted_asset_witness :
  exists f,
    itxn_assetConfig app_addr f (ledger s_init) = Some (1001, ledger s_listed) /\
    total f = 100 /\ decimals f = 0 /\ manager f = app_addr /\ reserve f = app_addr /\
    assetName f = main_st.
Proof.
  assert (Hc : createPropertyListing (env_of lister) (plain_payment lister 100000)
                 main_st 100 1000000 s_init = Ok (1001, s_listed))
    by (vm_compute; reflexivity).
  destruct (minted_asset _ _ _ _ _ _ _ _ Hc)
    as (f & Hi & Ht & Hd & Hm & Hr & _ & _ & _ & Hall).
  exists f. repeat split; try assumption.
  apply Hall. vm_compute. lia.
Defined.

(** The name of a long address is cut after 32 bytes. *)
Lemma long_address_name :
  length long_address = 49%nat /\
  assetName (propertyAssetConfig (env_of lister) long_address 50) =
    Bytes "1600 Pennsylvania Avenue NW, Was" /\
  is_ok (exec (env_of lister) list_long_address s_init) = true.
Proof. split; [| split]; vm_compute; reflexivity. Qed.

(** C7. [getPropertyInfo] is a read. With a record stored under
    [propertyId] it returns that record and the state it was called in;
    with no record it fails with 'Property not listed', in particular in the
    state that a successful [delistProperty] of that id leaves; and in either
    case the committed state is the state before the call. *)
Theorem getPropertyInfo_read_only {L : Type} `{Ledger L} (pid : Z) (s : State L) :
  (forall p, listedProperties s !! pid = Some p ->
     getPropertyInfo pid s = Ok (p, s)) /\
  (listedProperties s !! pid = None ->
   getPropertyInfo pid s = Abort (AssertFailed "Property not listed")) /\
  (forall env u s', delistProperty env pid s = Ok (u, s') ->
     getPropertyInfo pid s' = Abort (AssertFailed "Property not listed")) /\
  commit s (getPropertyInfo pid s) = s.
Proof.
  split; [| split; [| split]].
  - intros p Hp. apply getPropertyInfo_Some, Hp.
  - apply getPropertyInfo_None.
  - intros env u s' Hd. apply delistProperty_Ok in Hd.
    destruct Hd as (p & _ & _ & _ & ->).
    apply getPropertyInfo_None. cbn. apply lookup_delete_eq.
  - destruct (listedProperties s !! pid) as [p|] eqn:Hp.
    + rewrite (getPropertyInfo_Some _ _ _ Hp). reflexivity.
    + rewrite (getPropertyInfo_None _ _ Hp). reflexivity.
Qed.

Lemma getPropertyInfo_read_only_witness :
  getPropertyInfo 1001 s_listed = Ok (main_st_record, s_listed) /\
  getPropertyInfo 1002 s_listed = Abort (AssertFailed "Property not listed") /\
  getPropertyInfo 1001 s_delisted = Abort (AssertFailed "Property not listed").
Proof.
  split; [| split].
  - apply (proj1 (getPropertyInfo_read_only 1001 s_listed)). exact s_listed_record.
  - apply (proj1 (proj2 (getPropertyInfo_read_only 1002 s_listed))).
    vm_compute. reflexivity.
  - assert (Hd : delistProperty (env_of lister) 1001 s_listed = Ok (tt, s_delisted))
      by (vm_compute; reflexivity).
    exact (proj1 (proj2 (proj2 (getPropertyInfo_read_only 1001 s_listed))) _ _ _ Hd).
Defined.

(** C8. Only [availableShares] changes. A successful [purchaseFromLister]
    rewrites the box of its [propertyId] with the new [availableShares] and
    touches no other box. In a state the application can be in, whatever
    happens next (a call of any method by anybody, or the ledger moving on),
    a record that is stored before and after is the same record except that
    its [availableShares] went down by the shares the event sold of it,
    which is 0 unless the event is a successful [purchaseFromLister] of that
    id; so address, [totalShares], [pricePerShare], [propertyAssetId] and
    [ownerAddress] stay as created, also along any sequence of events. *)
Theorem record_terms_immutable {L : Type} `{Ledger L} `{!LedgerLaws L}
    (s : State L) (k : Z) (p : PropertyStruct) :
  listedProperties s !! k = Some p ->
  (forall env pid n payment b s',
     purchaseFromLister env pid n payment s = Ok (b, s') ->
     exists r, listedProperties s !! pid = Some r /\
       listedProperties s' =
         <[pid := with_availableShares r (availableShares r - n)]> (listedProperties s) /\
       (k <> pid -> listedProperties s' !! k = Some p)) /\
  (reachable s ->
   (forall ev q,
      valid_event s ev ->
      listedProperties (apply_event s ev) !! k = Some q ->
      q = with_availableShares p (availableShares p - shares_bought k s ev) /\
      same_terms p q) /\
   (forall evs q,
      valid_trace s evs ->
      listedProperties (run s evs) !! k = Some q ->
      same_terms p q)).
Proof.
  intros Hp. split.
  - intros env pid n payment b s' Hok. apply purchaseFromLister_Ok in Hok.
    destruct Hok as (r & l' & Hrec & _ & _ & _ & _ & _ & _ & ->).
    exists r. split; [assumption |]. split; [reflexivity |].
    intros Hne. cbn. rewrite lookup_insert_ne by congruence. exact Hp.
  - intros Hr.
    pose proof (reachable_shares_bounded s Hr) as Hb.
    pose proof (reachable_keys_allocated s Hr k (ex_intro _ p Hp)) as Hk.
    split.
    + intros ev q Hv Hq.
      pose proof (event_record s ev k Hv Hb Hk) as He. rewrite Hp in He.
      destruct He as [_ [Hnone | Hsome]]; [congruence |].
      rewrite Hsome in Hq. injection Hq as <-.
      split; [reflexivity | apply same_terms_with_availableShares].
    + intros evs q Hv Hq.
      pose proof (trace_record evs s k Hv Hb Hk) as Ht. rewrite Hp in Ht.
      destruct Ht as [_ [Hnone | Hsome]]; [congruence |].
      rewrite Hsome in Hq. injection Hq as <-.
      apply same_terms_with_availableShares.
Qed.

Lemma record_terms_immutable_witness :
  listedProperties s_ready !! 1001 = Some main_st_record /\
  reachable s_ready /\
  listedProperties s_bought !! 1001 = Some (with_availableShares main_st_record 90) /\
  same_terms main_st_record (with_availableShares main_st_record 90).
Proof.
  split; [exact s_ready_record |].
  split; [exact reachable_s_ready |].
  split; [exact s_bought_record |].
  destruct (record_terms_immutable s_ready 1001 main_st_record s_ready_record)
    as [_ Hreach].
  destruct (Hreach reachable_s_ready) as [Hev _].
  exact (proj2 (Hev (EvCall (env_of buyer) buy_ten) _ I s_bought_record)).
Defined.

(** C9. No wrap-around of the price. When [shares * pricePerShare] of the
    record exceeds [2^64 - 1], [purchaseFromLister] fails whatever the
    payment is, in particular when the payment carries the product reduced
    modulo [2^64], and commits nothing; for [shares > 0] the failure is the
    overflow of the multiplication. *)
Theorem purchase_price_overflow {L : Type} `{Ledger L}
    (env : CallEnv) (pid n : Z) (payment : PaymentTxn) (s : State L)
    (p : PropertyStruct) :
  listedProperties s !! pid = Some p ->
  MAX_UINT64 < n * pricePerShare p ->
  is_ok (purchaseFromLister env pid n payment s) = false /\
  commit s (purchaseFromLister env pid n payment s) = s /\
  (0 < n -> purchaseFromLister env pid n payment s = Abort Overflow).
Proof.
  intros Hp Hbig. rewrite (purchaseFromLister_Some _ _ _ _ _ _ Hp).
  rewrite (u64_mul_overflow _ _ Hbig).
  destruct (0 <? n) eqn:Hn.
  - repeat split.
  - repeat split. intros Hpos. apply Z.ltb_ge in Hn. lia.
Qed.

Lemma purchase_price_overflow_witness :
  listedProperties s_pricey !! 1001 = Some pricey_record /\
  (2 ^ 32 * pricePerShare pricey_record) mod 2 ^ 64 = 2 ^ 32 /\
  purchaseFromLister (env_of buyer) 1001 (2 ^ 32) (plain_payment buyer (2 ^ 32)) s_pricey
    = Abort Overflow.
Proof.
  assert (Hp : listedProperties s_pricey !! 1001 = Some pricey_record)
    by (vm_compute; reflexivity).
  split; [exact Hp |]. split; [vm_compute; reflexivity |].
  apply (purchase_price_overflow (env_of buyer) 1001 (2 ^ 32)
           (plain_payment buyer (2 ^ 32)) s_pricey pricey_record Hp).
  - vm_compute. reflexivity.
  - vm_compute. reflexivity.
Defined.

(** C10. What a delist leaves alone. A successful [delistProperty] submits
    no inner transaction: the ledger, with the asset and every holding of
    it, is the one before the call. In the box map the record of
    [propertyId] is gone and every other record is as before. *)
Theorem delist_keeps_token {L : Type} `{Ledger L}
    (env : CallEnv) (pid : Z) (s : State L) (u : unit) (s' : State L) :
  delistProperty env pid s = Ok (u, s') ->
  ledger s' = ledger s /\
  listedProperties s' = delete pid (listedProperties s) /\
  listedProperties s' !! pid = None /\
  (forall k, k <> pid -> listedProperties s' !! k = listedProperties s !! k).
Proof.
  intros Hd. apply delistProperty_Ok in Hd.
  destruct Hd as (p & _ & _ & _ & ->). cbn.
  split; [reflexivity |]. split; [reflexivity |].
  split; [apply lookup_delete_eq |].
  intros k Hne. apply lookup_delete_ne. congruence.
Qed.

Lemma delist_keeps_token_witness :
  ledger s_delisted = ledger s_listed /\
  listedProperties s_delisted !! 1001 = None /\
  assets (ledger s_delisted) !! 1001 =
    Some (propertyAssetConfig (env_of lister) main_st 100) /\
  holdings (ledger s_delisted) !! (app_addr, 1001) = Some 100.
Proof.
  assert (Hd : delistProperty (env_of lister) 1001 s_listed = Ok (tt, s_delisted))
    by (vm_compute; reflexivity).
  destruct (delist_keeps_token _ _ _ _ _ Hd) as (Hl & _ & Hgone & _).
  split; [exact Hl |]. split; [exact Hgone |].
  rewrite Hl. vm_compute. split; reflexivity.
Defined.

(** * Further properties of the contract *)

(** X1. When a purchase succeeds. [purchaseFromLister] succeeds exactly when
    [shares > 0], a record is stored under [propertyId], the price
    [shares * pricePerShare] fits in 64 bits, the payment carries exactly
    that amount to the application from the caller with no close-to and no
    rekey, [shares <= availableShares], and the ledger accepts the group of
    the two inner transactions. A successful call returns [true]. *)
Theorem purchase_succeeds_iff {L : Type} `{Ledger L}
    (env : CallEnv) (pid n : Z) (payment : PaymentTxn) (s : State L) :
  (is_ok (purchaseFromLister env pid n payment s) = true <->
   exists p,
     listedProperties s !! pid = Some p /\
     0 < n <= availableShares p /\
     n * pricePerShare p <= MAX_UINT64 /\
     pay_amount payment = n * pricePerShare p /\
     pay_receiver payment = Global_currentApplicationAddress env /\
     pay_sender payment = Txn_sender env /\
     pay_closeRemainderTo payment = Global_zeroAddress /\
     pay_rekeyTo payment = Global_zeroAddress /\
     is_Some (itxn_submitGroup (Global_currentApplicationAddress env)
                (purchase_group env p n payment) (ledger s))) /\
  (forall b s', purchaseFromLister env pid n payment s = Ok (b, s') -> b = true).
Proof.
  split.
  - split.
    + destruct (purchaseFromLister env pid n payment s) as [[b s']|e] eqn:Hc;
        [| discriminate].
      intros _. apply purchaseFromLister_Ok in Hc.
      destruct Hc as (p & l' & Hp & Hn & Hm & Hpay & Hle & Hg & _).
      apply payment_matches_spec in Hpay. exists p.
      repeat split; try tauto; try lia. rewrite Hg. eauto.
    + intros (p & Hp & Hn & Hm & Ha & Hr & Hs & Hc & Hk & [l' Hg]).
      assert (Hok : purchaseFromLister env pid n payment s =
                    Ok (true, Build_State
                          (<[pid := with_availableShares p (availableShares p - n)]>
                             (listedProperties s)) l')).
      { apply purchaseFromLister_Ok. exists p, l'.
        repeat split; try assumption; try lia.
        apply payment_matches_spec. tauto. }
      rewrite Hok. reflexivity.
  - intros b s' Hc. apply purchaseFromLister_Ok in Hc.
    destruct Hc as (p & l' & _ & _ & _ & _ & _ & _ & Hb & _). exact Hb.
Qed.

Lemma purchase_succeeds_iff_witness :
  is_ok (purchaseFromLister (env_of buyer) 1001 10 (plain_payment buyer 10000000) s_ready)
    = true.
Proof.
  apply (proj1 (purchase_succeeds_iff (env_of buyer) 1001 10
                  (plain_payment buyer 10000000) s_ready)).
  exists main_st_record. split; [exact s_ready_record |].
  split; [cbn; lia |].
  split; [vm_compute; discriminate |].
  repeat (split; [reflexivity |]).
  vm_compute. eauto.
Defined.

(** X2. What a purchase settles. In a state the application can be in, a
    successful purchase of [n] shares of the record [p] under [pid] has
    submitted exactly one group to the ledger: a transfer of [n] units of
    the asset [pid] to the account that sent the payment, and a payment of
    [n * pricePerShare p] microAlgos to [ownerAddress p], both without fee;
    the ledger after the call is what that group made of it. *)
Theorem purchase_settlement {L : Type} `{Ledger L}
    (env : CallEnv) (pid n : Z) (payment : PaymentTxn) (s : State L)
    (b : bool) (s' : State L) :
  reachable s ->
  purchaseFromLister env pid n payment s = Ok (b, s') ->
  exists p,
    listedProperties s !! pid = Some p /\
    itxn_submitGroup (Global_currentApplicationAddress env)
      [ ItxnAssetTransfer
          {| xferAsset := pid;
             assetReceiver := pay_sender payment;
             assetAmount := n;
             axfer_fee := 0 |};
        ItxnPayment
          {| amount := n * pricePerShare p;
             receiver := ownerAddress p;
             ipay_fee := 0 |} ] (ledger s) = Some (ledger s').
Proof.
  intros Hr Hc. apply purchaseFromLister_Ok in Hc.
  destruct Hc as (p & l' & Hp & _ & _ & Hpay & _ & Hg & _ & ->).
  apply payment_matches_spec in Hpay. destruct Hpay as (Ha & _ & Hs & _).
  destruct (reachable_records_well_formed s Hr _ _ Hp) as [Hid _].
  exists p. split; [assumption |].
  unfold purchase_group in Hg. rewrite Hid, <- Hs, Ha in Hg. exact Hg.
Qed.

Lemma purchase_settlement_witness :
  exists p,
    listedProperties s_ready !! 1001 = Some p /\
    itxn_submitGroup app_addr
      [ ItxnAssetTransfer
          {| xferAsset := 1001; assetReceiver := buyer; assetAmount := 10;
             axfer_fee := 0 |};
        ItxnPayment
          {| amount := 10 * pricePerShare p; receiver := ownerAddress p;
             ipay_fee := 0 |} ] (ledger s_ready) = Some (ledger s_bought).
Proof.
  assert (Hc : purchaseFromLister (env_of buyer) 1001 10
                 (plain_payment buyer 10000000) s_ready = Ok (true, s_bought))
    by (vm_compute; reflexivity).
  exact (purchase_settlement _ _ _ _ _ _ _ reachable_s_ready Hc).
Defined.

(** X3. Why a purchase is refused. A request for no share fails first, with
    'Must purchase at least one share', whatever the state and the payment;
    a request for an id with no record fails with 'Property not listed';
    with a correct payment, a request for more than is available fails with
    'Not enough shares'; and when every check passes but the ledger refuses
    the group (the buyer cannot receive the asset, say), the call fails as
    well. None of them commits anything. *)
Theorem purchase_refusals {L : Type} `{Ledger L}
    (env : CallEnv) (pid n : Z) (payment : PaymentTxn) (s : State L) :
  (n <= 0 ->
   purchaseFromLister env pid n payment s =
     Abort (AssertFailed "Must purchase at least one share")) /\
  (0 < n -> listedProperties s !! pid = None ->
   purchaseFromLister env pid n payment s =
     Abort (AssertFailed "Property not listed")) /\
  (forall p,
     0 < n -> listedProperties s !! pid = Some p ->
     n * pricePerShare p <= MAX_UINT64 ->
     payment_matches env payment (n * pricePerShare p) = true ->
     (availableShares p < n ->
      purchaseFromLister env pid n payment s =
        Abort (AssertFailed "Not enough shares")) /\
     (n <= availableShares p ->
      itxn_submitGroup (Global_currentApplicationAddress env)
        (purchase_group env p n payment) (ledger s) = None ->
      purchaseFromLister env pid n payment s = Abort InnerTxnRejected)) /\
  (is_ok (purchaseFromLister env pid n payment s) = false ->
   commit s (purchaseFromLister env pid n payment s) = s).
Proof.
  split; [| split; [| split]].
  - intros Hn. unfold purchaseFromLister, bind, assert, abort.
    destruct (Z.ltb_spec 0 n); [lia | reflexivity].
  - intros Hn Hp. unfold purchaseFromLister.
    cbv [bind assert abort ret box_exists get_boxes].
    destruct (Z.ltb_spec 0 n); [| lia].
    rewrite bool_decide_eq_false_2; [reflexivity |].
    rewrite Hp. intros [? ?]; discriminate.
  - intros p Hn Hp Hm Hpay.
    rewrite (purchaseFromLister_Some _ _ _ _ _ _ Hp).
    destruct (Z.ltb_spec 0 n); [| lia].
    replace (u64_mul n (pricePerShare p)) with (Ok (n * pricePerShare p))
      by (symmetry; apply u64_mul_Ok; auto).
    rewrite Hpay. split.
    + intros Hgt. destruct (Z.leb_spec n (availableShares p)); [lia | reflexivity].
    + intros Hle Hg. destruct (Z.leb_spec n (availableShares p)); [| lia].
      rewrite Hg. reflexivity.
  - destruct (purchaseFromLister env pid n payment s) as [[b s']|e];
      [discriminate | reflexivity].
Qed.

Lemma purchase_refusals_witness :
  purchaseFromLister (env_of buyer) 1001 0 (plain_payment buyer 0) s_ready =
    Abort (AssertFailed "Must purchase at least one share") /\
  purchaseFromLister (env_of buyer) 77 1 (plain_payment buyer 1) s_ready =
    Abort (AssertFailed "Property not listed") /\
  purchaseFromLister (env_of buyer) 1001 101 (plain_payment buyer 101000000) s_ready =
    Abort (AssertFailed "Not enough shares") /\
  purchaseFromLister (env_of buyer) 1001 10 (plain_payment buyer 10000000) s_listed =
    Abort InnerTxnRejected.
Proof.
  split; [| split; [| split]].
  - apply (proj1 (purchase_refusals (env_of buyer) 1001 0 (plain_payment buyer 0) s_ready)).
    lia.
  - apply (proj1 (proj2 (purchase_refusals (env_of buyer) 77 1
                           (plain_payment buyer 1) s_ready))).
    + lia.
    + vm_compute. reflexivity.
  - refine (proj1 (proj1 (proj2 (proj2 (purchase_refusals (env_of buyer) 1001 101
               (plain_payment buyer 101000000) s_ready))) main_st_record _ _ _ _) _).
    + lia.
    + exact s_ready_record.
    + vm_compute. discriminate.
    + vm_compute. reflexivity.
    + vm_compute. reflexivity.
  - refine (proj2 (proj1 (proj2 (proj2 (purchase_refusals (env_of buyer) 1001 10
               (plain_payment buyer 10000000) s_listed))) main_st_record _ _ _ _) _ _).
    + lia.
    + exact s_listed_record.
    + vm_compute. discriminate.
    + vm_compute. reflexivity.
    + vm_compute. discriminate.
    + vm_compute. reflexivity.
Defined.

(** X4. When a listing succeeds. [createPropertyListing] succeeds exactly
    when [shares > 0], [pricePerShare > 0], the storage cost fits in 64 bits
    and is covered by the payment, the payment goes to the application and
    comes from the caller, and the ledger creates the asset with the
    parameters the contract asks for. *)
Theorem listing_succeeds_iff {L : Type} `{Ledger L}
    (env : CallEnv) (mbrPayment : PaymentTxn) (propertyAddress : bytes)
    (shares price : Z) (s : State L) :
  is_ok (createPropertyListing env mbrPayment propertyAddress shares price s) = true <->
  0 < shares /\ 0 < price /\
  2500 + 400 * (18 + 68 + Z.of_nat (length propertyAddress)) <= MAX_UINT64 /\
  2500 + 400 * (18 + 68 + Z.of_nat (length propertyAddress)) <= pay_amount mbrPayment /\
  pay_receiver mbrPayment = Global_currentApplicationAddress env /\
  pay_sender mbrPayment = Txn_sender env /\
  is_Some (itxn_assetConfig (Global_currentApplicationAddress env)
             {| assetName := take 32 propertyAddress;
                unitName := Bytes "PROP";
                total := shares;
                decimals := 0;
                manager := Global_currentApplicationAddress env;
                reserve := Global_currentApplicationAddress env;
                acfg_fee := 0 |} (ledger s)).
Proof.
  split.
  - destruct (createPropertyListing env mbrPayment propertyAddress shares price s)
      as [[id s']|e] eqn:Hc; [| discriminate].
    intros _. apply createPropertyListing_Ok in Hc.
    destruct Hc as (cost & l' & Hs & Hp & Hc & Ha & Hr & Hsd & Hi & _).
    apply boxMbrCost_Ok in Hc as [Hmax ->].
    repeat split; try assumption.
    unfold propertyAssetConfig, truncate_name in Hi. rewrite Hi. eauto.
  - intros (Hs & Hp & Hmax & Ha & Hr & Hsd & [[id l'] Hi]).
    assert (Hok : exists s',
               createPropertyListing env mbrPayment propertyAddress shares price s
               = Ok (id, s')).
    { eexists. apply createPropertyListing_Ok.
      exists (2500 + 400 * (18 + 68 + Z.of_nat (length propertyAddress))), l'.
      repeat split; try assumption. apply boxMbrCost_Ok. auto. }
    destruct Hok as [s' ->]. reflexivity.
Qed.

Lemma listing_succeeds_iff_witness :
  is_ok (createPropertyListing (env_of lister) (plain_payment lister 100000)
           main_st 100 1000000 s_init) = true.
Proof.
  apply (proj2 (listing_succeeds_iff (env_of lister) (plain_payment lister 100000)
                  main_st 100 1000000 s_init)).
  split; [lia |]. split; [lia |].
  split; [vm_compute; discriminate |]. split; [vm_compute; discriminate |].
  split; [reflexivity |]. split; [reflexivity |].
  vm_compute. eauto.
Defined.

(** X5. Why a listing is refused, and what it does not look at. With the
    amount covering the cost, a payment to another receiver fails with 'MBR
    payment must be to the app' and a payment from another sender with 'MBR
    payment must be from the caller'; when the ledger does not create the
    asset the call fails and no record is written. Unlike a purchase, a
    listing does not read [closeRemainderTo] and [rekeyTo] of its payment:
    two payments with the same amount, receiver and sender give the same
    result. *)
Theorem listing_refusals {L : Type} `{Ledger L}
    (env : CallEnv) (mbrPayment : PaymentTxn) (propertyAddress : bytes)
    (shares price : Z) (s : State L) :
  0 < shares -> 0 < price ->
  2500 + 400 * (18 + 68 + Z.of_nat (length propertyAddress)) <= MAX_UINT64 ->
  2500 + 400 * (18 + 68 + Z.of_nat (length propertyAddress)) <= pay_amount mbrPayment ->
  (pay_receiver mbrPayment <> Global_currentApplicationAddress env ->
   createPropertyListing env mbrPayment propertyAddress shares price s =
     Abort (AssertFailed "MBR payment must be to the app")) /\
  (pay_receiver mbrPayment = Global_currentApplicationAddress env ->
   pay_sender mbrPayment <> Txn_sender env ->
   createPropertyListing env mbrPayment propertyAddress shares price s =
     Abort (AssertFailed "MBR payment must be from the caller")) /\
  (pay_receiver mbrPayment = Global_currentApplicationAddress env ->
   pay_sender mbrPayment = Txn_sender env ->
   itxn_assetConfig (Global_currentApplicationAddress env)
     (propertyAssetConfig env propertyAddress shares) (ledger s) = None ->
   createPropertyListing env mbrPayment propertyAddress shares price s =
     Abort InnerTxnRejected /\
   commit s (createPropertyListing env mbrPayment propertyAddress shares price s) = s) /\
  (forall close rekey,
     createPropertyListing env
       {| pay_amount := pay_amount mbrPayment;
          pay_receiver := pay_receiver mbrPayment;
          pay_sender := pay_sender mbrPayment;
          pay_closeRemainderTo := close;
          pay_rekeyTo := rekey |} propertyAddress shares price s =
     createPropertyListing env mbrPayment propertyAddress shares price s).
Proof.
  intros Hs Hp Hmax Ha.
  assert (Hcost : boxMbrCost propertyAddress =
                  Ok (2500 + 400 * (18 + 68 + Z.of_nat (length propertyAddress))))
    by (apply boxMbrCost_Ok; auto).
  assert (Hrun : createPropertyListing env mbrPayment propertyAddress shares price s =
    if bool_decide (pay_receiver mbrPayment = Global_currentApplicationAddress env) then
      if bool_decide (pay_sender mbrPayment = Txn_sender env) then
        match itxn_assetConfig (Global_currentApplicationAddress env)
                (propertyAssetConfig env propertyAddress shares) (ledger s) with
        | Some (id, l') =>
            Ok (id, Build_State
                      (<[id := {| address := propertyAddress;
                                  totalShares := shares;
                                  availableShares := shares;
                                  pricePerShare := price;
                                  propertyAssetId := id;
                                  ownerAddress := Txn_sender env |}]>
                         (listedProperties s)) l')
        | None => Abort InnerTxnRejected
        end
      else Abort (AssertFailed "MBR payment must be from the caller")
    else Abort (AssertFailed "MBR payment must be to the app")).
  { unfold createPropertyListing.
    cbv [bind ret abort lift assert get_boxes put_boxes box_set
         assetConfig_submit createPropertyAsset].
    destruct (Z.ltb_spec 0 shares); [| lia].
    destruct (Z.ltb_spec 0 price); [| lia].
    rewrite Hcost.
    destruct (Z.leb_spec (2500 + 400 * (18 + 68 + Z.of_nat (length propertyAddress)))
                (pay_amount mbrPayment)); [| lia].
    repeat case_bool_decide; try reflexivity.
    destruct (itxn_assetConfig _ _ _) as [[id l']|]; reflexivity. }
  split; [| split; [| split]].
  - intros Hr. rewrite Hrun. rewrite bool_decide_eq_false_2 by assumption. reflexivity.
  - intros Hr Hsd. rewrite Hrun. rewrite bool_decide_eq_true_2 by assumption.
    rewrite bool_decide_eq_false_2 by assumption. reflexivity.
  - intros Hr Hsd Hi. rewrite Hrun. rewrite !bool_decide_eq_true_2 by assumption.
    rewrite Hi. split; reflexivity.
  - intros close rekey. unfold createPropertyListing.
    cbv [bind ret abort lift assert]. cbn [pay_amount pay_receiver pay_sender].
    reflexivity.
Qed.

Lemma listing_refusals_witness :
  createPropertyListing (env_of lister)
    {| pay_amount := 100000; pay_receiver := lister; pay_sender := lister;
       pay_closeRemainderTo := Global_zeroAddress; pay_rekeyTo := Global_zeroAddress |}
    main_st 100 1000000 s_init =
    Abort (AssertFailed "MBR payment must be to the app") /\
  createPropertyListing (env_of lister) (plain_payment buyer 100000)
    main_st 100 1000000 s_init =
    Abort (AssertFailed "MBR payment must be from the caller").
Proof.
  split.
  - refine (proj1 (listing_refusals (env_of lister) _ main_st 100 1000000 s_init
                     _ _ _ _) _).
    + lia.
    + lia.
    + vm_compute. discriminate.
    + vm_compute. discriminate.
    + vm_compute. discriminate.
  - refine (proj1 (proj2 (listing_refusals (env_of lister) (plain_payment buyer 100000)
                     main_st 100 1000000 s_init _ _ _ _)) _ _).
    + lia.
    + lia.
    + vm_compute. discriminate.
    + vm_compute. discriminate.
    + reflexivity.
    + vm_compute. discriminate.
Defined.

(** X6. The stored records are well formed. In every state the application
    can be in, a record is stored under its own [propertyAssetId], has
    [totalShares > 0] and [pricePerShare > 0], and its key is an asset id
    that the ledger has given out. *)
Theorem stored_records_well_formed {L : Type} `{Ledger L} `{!LedgerLaws L}
    (s : State L) (k : Z) (p : PropertyStruct) :
  reachable s ->
  listedProperties s !! k = Some p ->
  propertyAssetId p = k /\ 0 < totalShares p /\ 0 < pricePerShare p /\
  asset_allocated (ledger s) k = true.
Proof.
  intros Hr Hp.
  destruct (reachable_records_well_formed s Hr k p Hp) as (Hid & Ht & Hpr).
  repeat split; try assumption.
  apply (reachable_keys_allocated s Hr). eauto.
Qed.

Lemma stored_records_well_formed_witness :
  propertyAssetId (with_availableShares main_st_record 90) = 1001 /\
  0 < totalShares (with_availableShares main_st_record 90) /\
  0 < pricePerShare (with_availableShares main_st_record 90) /\
  asset_allocated (ledger s_bought) 1001 = true.
Proof.
  exact (stored_records_well_formed s_bought 1001 _ reachable_s_bought s_bought_record).
Defined.

(** X7. A listing gets an id of its own. In a state the application can be
    in, a successful listing writes under an id that had no record, so it
    overwrites nothing and leaves every other record as it was; and a later
    listing, whatever happened in between, returns a different id. *)
Theorem listing_id_is_new {L : Type} `{Ledger L} `{!LedgerLaws L}
    (env : CallEnv) (mbrPayment : PaymentTxn) (propertyAddress : bytes)
    (shares price : Z) (s : State L) (id : Z) (s' : State L) :
  reachable s ->
  createPropertyListing env mbrPayment propertyAddress shares price s = Ok (id, s') ->
  listedProperties s !! id = None /\
  (forall k, k <> id -> listedProperties s' !! k = listedProperties s !! k) /\
  (forall evs env2 mbr2 addr2 shares2 price2 id2 s2,
     valid_trace s' evs ->
     createPropertyListing env2 mbr2 addr2 shares2 price2 (run s' evs) = Ok (id2, s2) ->
     id2 <> id).
Proof.
  intros Hr Hc. split; [| split].
  - apply createPropertyListing_Ok in Hc.
    destruct Hc as (c & l' & _ & _ & _ & _ & _ & _ & Hi & _).
    apply assetConfig_fresh in Hi.
    destruct (listedProperties s !! id) as [q|] eqn:Hq; [| reflexivity].
    pose proof (reachable_keys_allocated s Hr id (ex_intro _ q Hq)). congruence.
  - intros k Hne. apply createPropertyListing_Ok in Hc.
    destruct Hc as (c & l' & _ & _ & _ & _ & _ & _ & _ & ->).
    cbn. apply lookup_insert_ne. congruence.
  - intros evs env2 mbr2 addr2 shares2 price2 id2 s2 Hv Hc2 Heq.
    eapply listing_ids_distinct; [exact Hc | exact Hv | exact Hc2 |].
    symmetry. exact Heq.
Qed.

Lemma listing_id_is_new_witness :
  listedProperties s_listed !! 1002 = None /\
  listedProperties s_two_listings !! 1001 = listedProperties s_listed !! 1001.
Proof.
  assert (Hc : createPropertyListing (env_of lister) (plain_payment lister 100000)
                 long_address 50 500000 s_listed = Ok (1002, s_two_listings))
    by (vm_compute; reflexivity).
  destruct (listing_id_is_new _ _ _ _ _ _ _ _ reachable_s_listed Hc) as (Hnew & Hkeep & _).
  split; [exact Hnew |]. apply Hkeep. lia.
Defined.

(** ** Records that are sold from, deleted, or paid for *)

Section Lifecycle.
Context {L : Type} `{Ledger L} `{!LedgerLaws L}.

Implicit Types (s : State L) (env : CallEnv) (p : PropertyStruct).

(** Only a delist removes a record, and it removes an unsold one. *)
Lemma event_deletes_unsold s ev pid p :
  listedProperties s !! pid = Some p ->
  listedProperties (apply_event s ev) !! pid = None ->
  availableShares p = totalShares p.
Proof.
  intros Hp. destruct ev as [env c | l']; cbn [apply_event listedProperties].
  - destruct (commit_exec env c s) as [-> | He]; [congruence |].
    revert He. generalize (commit s (exec env c s)). intros s' He.
    destruct c as [mbr a n pr | k n pay | k | k]; cbn in He.
    + destruct He as (id & l' & _ & _ & _ & ->). cbn.
      destruct (decide (id = pid)) as [->|Hne].
      * rewrite lookup_insert_eq. discriminate.
      * rewrite lookup_insert_ne by assumption. congruence.
    + destruct He as (q & l' & _ & _ & _ & ->). cbn.
      destruct (decide (k = pid)) as [->|Hne].
      * rewrite lookup_insert_eq. discriminate.
      * rewrite lookup_insert_ne by assumption. congruence.
    + destruct He as (q & Hq & Hall & ->). cbn.
      destruct (decide (k = pid)) as [->|Hne].
      * intros _. congruence.
      * rewrite lookup_delete_ne by assumption. congruence.
    + subst s'. congruence.
  - congruence.
Qed.

Lemma trace_keeps_sold evs : forall s pid p,
  valid_trace s evs -> shares_bounded s ->
  asset_allocated (ledger s) pid = true ->
  listedProperties s !! pid = Some p ->
  availableShares p < totalShares p ->
  listedProperties (run s evs) !! pid =
    Some (with_availableShares p (availableShares p - shares_sold pid s evs)).
Proof.
  induction evs as [| ev evs IH]; intros s pid p Hv Hb Hpid Hp Hsold.
  - cbn. rewrite Z.sub_0_r, with_availableShares_id. exact Hp.
  - destruct Hv as [Hev Hrest]. cbn [run shares_sold].
    pose proof (event_record s ev pid Hev Hb Hpid) as Hstep. rewrite Hp in Hstep.
    destruct Hstep as [Hbought [Hnone | Hsome]].
    + pose proof (event_deletes_unsold s ev pid p Hp Hnone). lia.
    + rewrite (IH (apply_event s ev) pid _ Hrest
                 (apply_event_shares_bounded s ev Hb)
                 (apply_event_advances s ev Hev pid Hpid) Hsome)
        by (cbn; lia).
      rewrite with_availableShares_twice. cbn. do 2 f_equal. lia.
Qed.

(** What a purchase forwards is the price of what it sells. *)
Lemma payment_forwarded_price s ev pid :
  match listedProperties s !! pid with
  | Some p => payment_forwarded pid s ev = pricePerShare p * shares_bought pid s ev
  | None => payment_forwarded pid s ev = 0
  end.
Proof.
  assert (Hzero : payment_forwarded pid s ev = 0 -> shares_bought pid s ev = 0 ->
                  match listedProperties s !! pid with
                  | Some p => payment_forwarded pid s ev
                              = pricePerShare p * shares_bought pid s ev
                  | None => payment_forwarded pid s ev = 0
                  end).
  { intros -> ->. destruct (listedProperties s !! pid); lia. }
  destruct ev as [env [mbr a n pr | k n pay | k | k] | l'];
    try (apply Hzero; reflexivity).
  cbn [payment_forwarded shares_bought].
  destruct (purchaseFromLister env k n pay s) as [[b s']|e] eqn:Hc; cbn [is_ok].
  - apply purchaseFromLister_Ok in Hc.
    destruct Hc as (q & l' & Hq & _ & _ & Hpay & _).
    apply payment_matches_spec in Hpay. destruct Hpay as [Ha _].
    case_bool_decide as Hk; cbn [andb].
    + subst k. rewrite Hq. lia.
    + destruct (listedProperties s !! pid); lia.
  - rewrite andb_false_r. destruct (listedProperties s !! pid); lia.
Qed.

Lemma trace_payments evs : forall s pid,
  valid_trace s evs -> shares_bounded s ->
  asset_allocated (ledger s) pid = true ->
  match listedProperties s !! pid with
  | Some p => payments_forwarded pid s evs = pricePerShare p * shares_sold pid s evs
  | None => payments_forwarded pid s evs = 0
  end.
Proof.
  induction evs as [| ev evs IH]; intros s pid Hv Hb Hpid.
  - cbn. destruct (listedProperties s !! pid); lia.
  - destruct Hv as [Hev Hrest]. cbn [payments_forwarded shares_sold].
    pose proof (payment_forwarded_price s ev pid) as Hpay.
    pose proof (event_record s ev pid Hev Hb Hpid) as Hstep.
    specialize (IH (apply_event s ev) pid Hrest
                  (apply_event_shares_bounded s ev Hb)
                  (apply_event_advances s ev Hev pid Hpid)).
    pose proof (trace_record evs (apply_event s ev) pid Hrest
                  (apply_event_shares_bounded s ev Hb)
                  (apply_event_advances s ev Hev pid Hpid)) as Hrec.
    destruct (listedProperties s !! pid) as [p|] eqn:Hp.
    + destruct Hstep as [_ [Hnone | Hsome]].
      * rewrite Hnone in IH, Hrec. destruct Hrec as [_ Hsold]. lia.
      * rewrite Hsome in IH. cbn in IH. lia.
    + destruct Hstep as [Hnone _]. rewrite Hnone in IH. lia.
Qed.

End Lifecycle.

(** X8. A record that has been sold from cannot be removed. In a state the
    application can be in, once a record has fewer available shares than
    total shares, whatever happens next it is still stored, with the same
    terms and still fewer available than total shares, and
    [delistProperty] fails for every caller, the owner included. *)
Theorem sold_record_permanent {L : Type} `{Ledger L} `{!LedgerLaws L}
    (s : State L) (pid : Z) (p : PropertyStruct) (evs : list (Event L)) :
  reachable s ->
  listedProperties s !! pid = Some p ->
  availableShares p < totalShares p ->
  valid_trace s evs ->
  exists q,
    listedProperties (run s evs) !! pid = Some q /\
    same_terms p q /\
    availableShares q < totalShares q /\
    forall env, is_ok (delistProperty env pid (run s evs)) = false.
Proof.
  intros Hr Hp Hsold Hv.
  pose proof (reachable_shares_bounded s Hr) as Hb.
  pose proof (reachable_keys_allocated s Hr pid (ex_intro _ p Hp)) as Hk.
  pose proof (trace_keeps_sold evs s pid p Hv Hb Hk Hp Hsold) as Hq.
  pose proof (trace_record evs s pid Hv Hb Hk) as Ht. rewrite Hp in Ht.
  destruct Ht as [Hrange _].
  eexists. split; [exact Hq |].
  split; [apply same_terms_with_availableShares |].
  split; [cbn; lia |].
  intros env. rewrite (delistProperty_Some _ _ _ _ Hq).
  case_bool_decide; [| reflexivity].
  rewrite bool_decide_eq_false_2; [reflexivity |]. cbn. lia.
Qed.

Lemma sold_record_permanent_witness :
  exists q,
    listedProperties (run s_bought [EvCall (env_of lister) (DelistProperty 1001)])
      !! 1001 = Some q /\
    same_terms (with_availableShares main_st_record 90) q /\
    availableShares q < totalShares q /\
    forall env,
      is_ok (delistProperty env 1001
               (run s_bought [EvCall (env_of lister) (DelistProperty 1001)])) = false.
Proof.
  apply (sold_record_permanent s_bought 1001 (with_availableShares main_st_record 90)
           [EvCall (env_of lister) (DelistProperty 1001)]).
  - exact reachable_s_bought.
  - exact s_bought_record.
  - cbn. lia.
  - cbn. auto.
Defined.

(** X9. A delisted id stays empty. After a successful [delistProperty] in a
    state the application can be in, whatever happens next no record is
    stored under that id again: no share of it is sold, nothing is paid for
    it, and [getPropertyInfo] keeps failing with 'Property not listed'. *)
Theorem delisted_stays_gone {L : Type} `{Ledger L} `{!LedgerLaws L}
    (env : CallEnv) (pid : Z) (s : State L) (u : unit) (s' : State L)
    (evs : list (Event L)) :
  reachable s ->
  delistProperty env pid s = Ok (u, s') ->
  valid_trace s' evs ->
  listedProperties (run s' evs) !! pid = None /\
  shares_sold pid s' evs = 0 /\
  payments_forwarded pid s' evs = 0 /\
  getPropertyInfo pid (run s' evs) = Abort (AssertFailed "Property not listed").
Proof.
  intros Hr Hd Hv. apply delistProperty_Ok in Hd.
  destruct Hd as (p & Hp & Ho & Ha & ->).
  pose proof (reachable_shares_bounded s Hr) as Hb.
  pose proof (reachable_keys_allocated s Hr pid (ex_intro _ p Hp)) as Hk.
  set (s' := Build_State (delete pid (listedProperties s)) (ledger s)) in *.
  assert (Hb' : shares_bounded s').
  { apply (call_effect_shares_bounded env (DelistProperty pid) s s'); [| exact Hb].
    cbn. exists p. auto. }
  assert (Hgone : listedProperties s' !! pid = None) by apply lookup_delete_eq.
  pose proof (trace_record evs s' pid Hv Hb' Hk) as Ht.
  pose proof (trace_payments evs s' pid Hv Hb' Hk) as Hpaid.
  rewrite Hgone in Ht, Hpaid. destruct Ht as [Hend Hsold].
  repeat split; try assumption.
  apply getPropertyInfo_None. exact Hend.
Qed.

Lemma delisted_stays_gone_witness :
  listedProperties (run s_delisted [EvCall (env_of buyer) buy_ten]) !! 1001 = None /\
  shares_sold 1001 s_delisted [EvCall (env_of buyer) buy_ten] = 0 /\
  payments_forwarded 1001 s_delisted [EvCall (env_of buyer) buy_ten] = 0 /\
  getPropertyInfo 1001 (run s_delisted [EvCall (env_of buyer) buy_ten]) =
    Abort (AssertFailed "Property not listed").
Proof.
  assert (Hd : delistProperty (env_of lister) 1001 s_listed = Ok (tt, s_delisted))
    by (vm_compute; reflexivity).
  apply (delisted_stays_gone _ _ _ _ _ [EvCall (env_of buyer) buy_ten]
           reachable_s_listed Hd).
  cbn. auto.
Defined.



(** X11. Listing and delisting at once. In a state the application can be
    in, after a successful listing the lister can delist right away, and
    the box map is then the one before the listing; the ledger is the one
    the listing left, so the created asset stays behind. *)
Theorem list_then_delist {L : Type} `{Ledger L} `{!LedgerLaws L}
    (env env' : CallEnv) (mbrPayment : PaymentTxn) (propertyAddress : bytes)
    (shares price : Z) (s : State L) (id : Z) (s1 : State L) :
  reachable s ->
  createPropertyListing env mbrPayment propertyAddress shares price s = Ok (id, s1) ->
  Txn_sender env' = Txn_sender env ->
  exists s2,
    delistProperty env' id s1 = Ok (tt, s2) /\
    listedProperties s2 = listedProperties s /\
    ledger s2 = ledger s1.
Proof.
  intros Hr Hc Hsender.
  assert (Hnew : listedProperties s !! id = None).
  { apply createPropertyListing_Ok in Hc.
    destruct Hc as (c & l' & _ & _ & _ & _ & _ & _ & Hi & _).
    apply assetConfig_fresh in Hi.
    destruct (listedProperties s !! id) as [q|] eqn:Hq; [| reflexivity].
    pose proof (reachable_keys_allocated s Hr id (ex_intro _ q Hq)). congruence. }
  apply createPropertyListing_Ok in Hc.
  destruct Hc as (c & l' & _ & _ & _ & _ & _ & _ & _ & ->).
  eexists. split; [| split].
  - apply delistProperty_Ok. eexists. split; [cbn; apply lookup_insert_eq |].
    cbn. split; [exact Hsender |]. split; reflexivity.
  - cbn. apply delete_insert_id. exact Hnew.
  - reflexivity.
Qed.

Lemma list_then_delist_witness :
  exists s2,
    delistProperty (env_of lister) 1001 s_listed = Ok (tt, s2) /\
    listedProperties s2 = listedProperties s_init /\
    ledger s2 = ledger s_listed.
Proof.
  assert (Hc : createPropertyListing (env_of lister) (plain_payment lister 100000)
                 main_st 100 1000000 s_init = Ok (1001, s_listed))
    by (vm_compute; reflexivity).
  exact (list_then_delist (env_of lister) (env_of lister) _ _ _ _ _ _ _
           reachable_s_init Hc eq_refl).
Defined.

(** X12. Writing the available shares. On an id with no record
    [updateAvailableShares] fails and creates nothing. On a stored record it
    rewrites that box alone with the new value, which [getPropertyInfo] then
    returns with the other fields as before; it leaves the ledger alone; a
    second write replaces the first; and writing the value already stored
    changes nothing. *)
Theorem updateAvailableShares_writes {L : Type} `{Ledger L}
    (pid n : Z) (s : State L) :
  (listedProperties s !! pid = None ->
   updateAvailableShares pid n s = Abort BoxMissing) /\
  (forall p,
     listedProperties s !! pid = Some p ->
     exists s1,
       updateAvailableShares pid n s = Ok (tt, s1) /\
       getPropertyInfo pid s1 = Ok (with_availableShares p n, s1) /\
       ledger s1 = ledger s /\
       (forall k, k <> pid -> listedProperties s1 !! k = listedProperties s !! k) /\
       (forall m, updateAvailableShares pid m s1 = updateAvailableShares pid m s) /\
       (n = availableShares p -> s1 = s)).
Proof.
  assert (Hrun : forall m (t : State L) q,
            listedProperties t !! pid = Some q ->
            updateAvailableShares pid m t =
              Ok (tt, Build_State (<[pid := with_availableShares q m]> (listedProperties t))
                        (ledger t))).
  { intros m t q Hq. unfold updateAvailableShares.
    cbv [bind ret abort get_boxes put_boxes box_value box_set].
    rewrite Hq. reflexivity. }
  split.
  - intros Hp. unfold updateAvailableShares.
    cbv [bind ret abort get_boxes put_boxes box_value box_set].
    rewrite Hp. reflexivity.
  - intros p Hp. eexists. split; [apply (Hrun n s p Hp) |].
    split; [| split; [| split; [| split]]].
    + apply getPropertyInfo_Some. cbn. apply lookup_insert_eq.
    + reflexivity.
    + intros k Hne. cbn. apply lookup_insert_ne. congruence.
    + intros m. rewrite (Hrun m s p Hp).
      rewrite (Hrun m _ (with_availableShares p n)) by (cbn; apply lookup_insert_eq).
      cbn. rewrite insert_insert_eq. reflexivity.
    + intros ->. rewrite with_availableShares_id. destruct s as [boxes l]. cbn in *.
      f_equal. apply insert_id. exact Hp.
Qed.

Lemma updateAvailableShares_writes_witness :
  updateAvailableShares 77 5 s_listed = Abort BoxMissing /\
  exists s1,
    updateAvailableShares 1001 90 s_listed = Ok (tt, s1) /\
    getPropertyInfo 1001 s1 = Ok (with_availableShares main_st_record 90, s1).
Proof.
  split.
  - apply (proj1 (updateAvailableShares_writes 77 5 s_listed)).
    vm_compute. reflexivity.
  - destruct (proj2 (updateAvailableShares_writes 1001 90 s_listed)
                main_st_record s_listed_record) as (s1 & Hu & Hg & _).
    exists s1. split; assumption.
Defined.

(** * Properties of the clients *)

(** ** Big-endian bytes *)

Lemma length_be_encode n : forall v, length (be_encode n v) = n.
Proof.
  induction n as [| n IH]; intros v; cbn; [reflexivity |].
  rewrite length_app, IH. cbn. lia.
Qed.

Lemma Z_of_byte_of_Z z : Z_of_byte (byte_of_Z z) = z mod 256.
Proof.
  unfold Z_of_byte, byte_of_Z.
  assert (Hr : 0 <= z mod 256 < 256) by (apply Z.mod_pos_bound; lia).
  destruct (Byte.of_N (Z.to_N (z mod 256))) as [b|] eqn:Hb; cbn.
  - apply Byte.to_of_N in Hb. rewrite Hb. lia.
  - apply Byte.of_N_None_iff in Hb. lia.
Qed.

Lemma Z_of_byte_range b : 0 <= Z_of_byte b < 256.
Proof.
  unfold Z_of_byte. pose proof (Byte.to_N_bounded b). lia.
Qed.

Lemma be_decode_snoc bs b : be_decode (bs ++ [b]) = be_decode bs * 256 + Z_of_byte b.
Proof. unfold be_decode. rewrite fold_left_app. reflexivity. Qed.

Lemma be_decode_encode n : forall v, be_decode (be_encode n v) = v mod 256 ^ Z.of_nat n.
Proof.
  induction n as [| n IH]; intros v.
  - cbn. rewrite Z.mod_1_r. reflexivity.
  - cbn [be_encode]. rewrite be_decode_snoc, IH, Z_of_byte_of_Z.
    rewrite Nat2Z.inj_succ, Z.pow_succ_r by lia.
    rewrite (Z.rem_mul_r v 256 (256 ^ Z.of_nat n)) by lia. lia.
Qed.

Lemma be_encode_mod n : forall v, be_encode n (v mod 256 ^ Z.of_nat n) = be_encode n v.
Proof.
  induction n as [| n IH]; intros v; [reflexivity |].
  cbn [be_encode]. rewrite Nat2Z.inj_succ, Z.pow_succ_r by lia.
  assert (Hpos : 0 < 256 ^ Z.of_nat n) by (apply Z.pow_pos_nonneg; lia).
  f_equal.
  - rewrite <- (IH (v / 256)). f_equal.
    rewrite (Z.rem_mul_r v 256 (256 ^ Z.of_nat n)) by lia.
    rewrite (Z.mul_comm 256 ((v / 256) mod 256 ^ Z.of_nat n)).
    rewrite Z.div_add by lia.
    rewrite (Z.div_small (v mod 256) 256) by (apply Z.mod_pos_bound; lia).
    reflexivity.
  - f_equal. unfold byte_of_Z. do 3 f_equal.
    rewrite (Z.rem_mul_r v 256 (256 ^ Z.of_nat n)) by lia.
    rewrite (Z.mul_comm 256 ((v / 256) mod 256 ^ Z.of_nat n)).
    rewrite Z.mod_add by lia. apply Z.mod_mod. lia.
Qed.

(** ** Box references *)

(** X13. The length of a box name. The name that [createBoxReference]
    builds, in the test suite (when it returns) and in the hook, has the
    bytes of the prefix and 8 more; with the prefix 'properties' these are
    the 18 bytes that the storage cost of [createPropertyListing] charges
    for the box name, whatever the key. *)
Theorem box_name_length (appId key : Z) (prefix : string) (propertyAddress : bytes) :
  length (box_name (Hook.createBoxReference appId prefix key))
    = (length (Bytes prefix) + 8)%nat /\
  (forall r, Tests.createBoxReference appId prefix key = Some r ->
     length (box_name r) = (length (Bytes prefix) + 8)%nat) /\
  (forall c, boxMbrCost propertyAddress = Ok c ->
     c = 2500 + 400 *
           (Z.of_nat (length (box_name (Hook.createBoxReference appId "properties" key)))
            + 68 + Z.of_nat (length propertyAddress))).
Proof.
  assert (Hlen : forall pre k,
            length (box_name (Hook.createBoxReference appId pre k))
            = (length (Bytes pre) + 8)%nat).
  { intros pre k. unfold Hook.createBoxReference, Hook.setBigUint64, box_name.
    rewrite length_app, length_be_encode. reflexivity. }
  split; [apply Hlen |]. split.
  - intros r. unfold Tests.createBoxReference, Tests.ABIUint64_encode.
    case_bool_decide; [| discriminate]. intros [= <-]. unfold box_name.
    rewrite length_app. reflexivity.
  - intros c Hc. apply boxMbrCost_Ok in Hc as [_ ->].
    rewrite (Hlen "properties"%string key).
    change (length (Bytes "properties")) with 10%nat. lia.
Qed.

Lemma box_name_length_witness :
  length (box_name (Hook.createBoxReference 7 "properties" 1001)) = 18%nat /\
  exists c,
    boxMbrCost main_st = Ok c /\
    c = 2500 + 400 *
          (Z.of_nat (length (box_name (Hook.createBoxReference 7 "properties" 1001)))
           + 68 + Z.of_nat (length main_st)).
Proof.
  split; [vm_compute; reflexivity |].
  assert (Hc : boxMbrCost main_st = Ok 41300) by (vm_compute; reflexivity).
  exists 41300. split; [exact Hc |].
  exact (proj2 (proj2 (box_name_length 7 1001 "properties" main_st)) 41300 Hc).
Defined.

(** X14. A box name determines its key. For a key that fits in 64 bits the
    name starts with the bytes of the prefix and the 8 bytes after them
    decode, big-endian, to the key; so under one prefix two such keys with
    the same box name are equal: different properties have different
    boxes. *)
Theorem box_name_round_trip (appId key : Z) (prefix : string) :
  0 <= key <= MAX_UINT64 ->
  take (length (Bytes prefix)) (box_name (Hook.createBoxReference appId prefix key))
    = Bytes prefix /\
  be_decode (drop (length (Bytes prefix))
               (box_name (Hook.createBoxReference appId prefix key))) = key /\
  (forall appId' key',
     0 <= key' <= MAX_UINT64 ->
     box_name (Hook.createBoxReference appId' prefix key')
       = box_name (Hook.createBoxReference appId prefix key) ->
     key' = key).
Proof.
  intros Hk.
  assert (Hdec : forall k, 0 <= k <= MAX_UINT64 ->
            be_decode (drop (length (Bytes prefix))
                         (box_name (Hook.createBoxReference appId prefix k))) = k).
  { intros k Hr. cbn [box_name Hook.createBoxReference].
    rewrite drop_app_length. unfold Hook.setBigUint64.
    rewrite be_decode_encode. unfold MAX_UINT64 in Hr.
    change (256 ^ Z.of_nat 8) with (2 ^ 64).
    rewrite Z.mod_mod by lia. apply Z.mod_small. lia. }
  split; [| split].
  - cbn [box_name Hook.createBoxReference]. apply take_app_length.
  - apply Hdec, Hk.
  - intros appId' key' Hk' Heq.
    rewrite <- (Hdec key' Hk'), <- (Hdec key Hk).
    cbn [box_name Hook.createBoxReference] in *. rewrite Heq. reflexivity.
Qed.

Lemma box_name_round_trip_witness :
  be_decode (drop 10 (box_name (Hook.createBoxReference 7 "properties" 1001))) = 1001.
Proof.
  refine (proj1 (proj2 (box_name_round_trip 7 1001 "properties" _))).
  vm_compute. split; discriminate.
Defined.

(** X15. The two [createBoxReference] agree on 64-bit keys and differ
    outside. For [0 <= key < 2^64] the test suite's version returns the
    reference that the hook's version returns. For any other key the test
    suite's version throws, while the hook's version does not: it names the
    box of the key reduced modulo [2^64]. *)
Theorem box_reference_versions (appId key : Z) (prefix : string) :
  (0 <= key <= MAX_UINT64 ->
   Tests.createBoxReference appId prefix key
     = Some (Hook.createBoxReference appId prefix key)) /\
  (~ 0 <= key <= MAX_UINT64 ->
   Tests.createBoxReference appId prefix key = None) /\
  Hook.createBoxReference appId prefix key
    = Hook.createBoxReference appId prefix (key mod 2 ^ 64) /\
  be_decode (drop (length (Bytes prefix))
               (box_name (Hook.createBoxReference appId prefix key)))
    = key mod 2 ^ 64.
Proof.
  split; [| split; [| split]].
  - intros Hk. unfold Tests.createBoxReference, Tests.ABIUint64_encode.
    rewrite bool_decide_eq_true_2 by assumption.
    unfold Hook.createBoxReference, Hook.setBigUint64.
    unfold MAX_UINT64 in Hk. rewrite Z.mod_small by lia. reflexivity.
  - intros Hk. unfold Tests.createBoxReference, Tests.ABIUint64_encode.
    rewrite bool_decide_eq_false_2 by assumption. reflexivity.
  - unfold Hook.createBoxReference, Hook.setBigUint64.
    rewrite Z.mod_mod by lia. reflexivity.
  - cbn [box_name Hook.createBoxReference].
    rewrite drop_app_length. unfold Hook.setBigUint64.
    rewrite be_decode_encode. change (256 ^ Z.of_nat 8) with (2 ^ 64).
    apply Z.mod_mod. lia.
Qed.

Lemma box_reference_versions_witness :
  Tests.createBoxReference 7 "properties" 1001
    = Some (Hook.createBoxReference 7 "properties" 1001) /\
  Tests.createBoxReference 7 "properties" (2 ^ 64 + 1001) = None /\
  Hook.createBoxReference 7 "properties" (2 ^ 64 + 1001)
    = Hook.createBoxReference 7 "properties" 1001.
Proof.
  split; [| split].
  - apply (proj1 (box_reference_versions 7 1001 "properties")).
    vm_compute. split; discriminate.
  - apply (proj1 (proj2 (box_reference_versions 7 (2 ^ 64 + 1001) "properties"))).
    vm_compute. intros [_ Hle]. apply Hle. reflexivity.
  - vm_compute. reflexivity.
Defined.

(** ** The delist hook *)

(** X16. The hook always settles. With a client and a connected address,
    however the send ends and whatever [onTx] does, a run of the hook's
    [delistProperty] ends with [loading] false and no property marked as
    being delisted; and the send it awaited was for the given property, with
    the one box reference of that property under the prefix 'properties'. *)
Theorem hook_settles (client : Hook.AppClient) (activeAddress : option string)
    (propertyId : Z) (onTx : option Hook.Callback) (st : Hook.HookState) :
  Hook.falsy activeAddress = false ->
  let r := Hook.delistProperty (Some client) activeAddress propertyId onTx st in
  Hook.st_loading (Hook.final r) = false /\
  Hook.st_delistingPropertyId (Hook.final r) = None /\
  (Hook.st_success (Hook.final r) = Some "Property delisted!"%string <->
   exists txIds,
     Hook.send_delistProperty client propertyId
       [Hook.createBoxReference (Hook.appId client) "properties" propertyId]
     = Hook.Resolved txIds) /\
  (Hook.st_success (Hook.final r) = None <->
   exists e,
     Hook.send_delistProperty client propertyId
       [Hook.createBoxReference (Hook.appId client) "properties" propertyId]
     = Hook.Rejected e).
Proof.
  intros Haddr r. subst r. unfold Hook.delistProperty. rewrite Haddr.
  destruct (Hook.send_delistProperty client propertyId _) as [txIds|e] eqn:Hsend.
  - destruct (Hook.call_onTx onTx (Hook.first_txId txIds)) as [calls [e|]].
    + unfold Hook.catch_finally. destruct (Hook.call_onTx onTx None) as [calls' thrown].
      cbn. repeat split; eauto; try discriminate. intros [e' He']. discriminate.
    + cbn. repeat split; eauto; try discriminate. intros [e' He']. discriminate.
  - unfold Hook.catch_finally. destruct (Hook.call_onTx onTx None) as [calls' thrown].
    cbn. repeat split; eauto; try discriminate. intros [t Ht]. discriminate.
Qed.

(** X17. What the hook reports. With a client, a connected address and an
    [onTx] that does not throw (or none), the state after a run does not
    depend on the state before. If the send resolved, the success message is
    'Property delisted!', there is no error, and [onTx] was called once,
    with the first transaction id if there is one. If the send threw, there
    is no success message, the error is the message of the [Error] thrown
    (or 'Failed to delist property' for another value), and [onTx] was
    called once with [undefined]. The promise is not rejected. *)
Theorem hook_reports (client : Hook.AppClient) (activeAddress : option string)
    (propertyId : Z) (onTx : option Hook.Callback) (st : Hook.HookState) :
  Hook.falsy activeAddress = false ->
  (forall f arg, onTx = Some f -> f arg = None) ->
  let called (arg : option string) :=
    match onTx with Some _ => [arg] | None => [] end in
  Hook.delistProperty (Some client) activeAddress propertyId onTx st =
    match Hook.send_delistProperty client propertyId
            [Hook.createBoxReference (Hook.appId client) "properties" propertyId] with
    | Hook.Resolved txIds =>
        {| Hook.final :=
             {| Hook.st_delistingPropertyId := None;
                Hook.st_loading := false;
                Hook.st_error := None;
                Hook.st_success := Some "Property delisted!"%string |};
           Hook.onTx_calls := called (Hook.first_txId txIds);
           Hook.rejection := None |}
    | Hook.Rejected e =>
        {| Hook.final :=
             {| Hook.st_delistingPropertyId := None;
                Hook.st_loading := false;
                Hook.st_error := Some (Hook.message_of e);
                Hook.st_success := None |};
           Hook.onTx_calls := called None;
           Hook.rejection := None |}
    end.
Proof.
  intros Haddr Hquiet called. subst called.
  unfold Hook.delistProperty. rewrite Haddr.
  destruct (Hook.send_delistProperty client propertyId _) as [txIds|e].
  - destruct onTx as [f|]; cbn.
    + rewrite (Hquiet f _ eq_refl). reflexivity.
    + reflexivity.
  - unfold Hook.catch_finally. destruct onTx as [f|]; cbn.
    + rewrite (Hquiet f _ eq_refl). reflexivity.
    + reflexivity.
Qed.

(** X18. The guards of the hook. Without a client, or with no connected
    address (null, undefined or the empty string), a run only sets the
    error message: it does not call [onTx], it leaves [loading] and the
    marked property as they were, and it does not clear an earlier success
    message. The missing client is reported first. *)
Theorem hook_guards (appClient : option Hook.AppClient) (activeAddress : option string)
    (propertyId : Z) (onTx : option Hook.Callback) (st : Hook.HookState) :
  appClient = None \/ activeAddress = None \/ activeAddress = Some EmptyString ->
  let r := Hook.delistProperty appClient activeAddress propertyId onTx st in
  Hook.st_error (Hook.final r) =
    Some (match appClient with
          | Some _ => "Please connect your wallet to delist."
          | None => "App is not ready. Please try again in a moment."
          end)%string /\
  Hook.st_success (Hook.final r) = Hook.st_success st /\
  Hook.st_loading (Hook.final r) = Hook.st_loading st /\
  Hook.st_delistingPropertyId (Hook.final r) = Hook.st_delistingPropertyId st /\
  Hook.onTx_calls r = [] /\
  Hook.rejection r = None.
Proof.
  intros Hguard r. subst r. unfold Hook.delistProperty.
  destruct appClient as [client|].
  - assert (Hf : Hook.falsy activeAddress = true).
    { destruct Hguard as [Hc | [-> | ->]]; [discriminate | reflexivity | reflexivity]. }
    rewrite Hf. cbn. repeat split.
  - cbn. repeat split.
Qed.

(** X19. A throwing callback. When the send resolved and [onTx] throws on
    its first call, the run goes through the [catch] block: the state ends
    with both the success message and the error message of what was thrown,
    [onTx] has been called a second time, with [undefined], and the promise
    is rejected exactly when that second call throws too. [loading] is
    false all the same. *)
Theorem hook_callback_throws (client : Hook.AppClient) (activeAddress : option string)
    (propertyId : Z) (f : Hook.Callback) (st : Hook.HookState)
    (txIds : option (list string)) (e : Hook.Thrown) :
  Hook.falsy activeAddress = false ->
  Hook.send_delistProperty client propertyId
    [Hook.createBoxReference (Hook.appId client) "properties" propertyId]
    = Hook.Resolved txIds ->
  f (Hook.first_txId txIds) = Some e ->
  Hook.delistProperty (Some client) activeAddress propertyId (Some f) st =
    {| Hook.final :=
         {| Hook.st_delistingPropertyId := None;
            Hook.st_loading := false;
            Hook.st_error := Some (Hook.message_of e);
            Hook.st_success := Some "Property delisted!"%string |};
       Hook.onTx_calls := [Hook.first_txId txIds; None];
       Hook.rejection := f None |}.
Proof.
  intros Haddr Hsend Hthrow. unfold Hook.delistProperty.
  rewrite Haddr, Hsend. cbn. rewrite Hthrow. reflexivity.
Qed.

Lemma hook_settles_witness :
  Hook.st_loading
    (Hook.final (Hook.delistProperty (Some demo_client) (Some "LISTER"%string) 1002
                   (Some throwing_onTx) Hook.initial)) = false.
Proof.
  refine (proj1 (hook_settles demo_client (Some "LISTER"%string) 1002
                   (Some throwing_onTx) Hook.initial _)).
  reflexivity.
Defined.

Lemma hook_reports_witness :
  Hook.delistProperty (Some demo_client) (Some "LISTER"%string) 1001
    (Some quiet_onTx) Hook.initial =
  {| Hook.final :=
       {| Hook.st_delistingPropertyId := None;
          Hook.st_loading := false;
          Hook.st_error := None;
          Hook.st_success := Some "Property delisted!"%string |};
     Hook.onTx_calls := [Some "TXID"%string];
     Hook.rejection := None |}.
Proof.
  refine (hook_reports demo_client (Some "LISTER"%string) 1001
            (Some quiet_onTx) Hook.initial _ _).
  - reflexivity.
  - intros f arg [= <-]. reflexivity.
Defined.

Lemma hook_guards_witness :
  Hook.st_error
    (Hook.final (Hook.delistProperty (Some demo_client) (Some EmptyString) 1001
                   (Some quiet_onTx) Hook.initial))
    = Some "Please connect your wallet to delist."%string.
Proof.
  refine (proj1 (hook_guards (Some demo_client) (Some EmptyString) 1001
                   (Some quiet_onTx) Hook.initial _)).
  right. right. reflexivity.
Defined.

Lemma hook_callback_throws_witness :
  Hook.delistProperty (Some demo_client) (Some "LISTER"%string) 1001
    (Some throwing_onTx) Hook.initial =
  {| Hook.final :=
       {| Hook.st_delistingPropertyId := None;
          Hook.st_loading := false;
          Hook.st_error := Some "render failed"%string;
          Hook.st_success := Some "Property delisted!"%string |};
     Hook.onTx_calls := [Some "TXID"%string; None];
     Hook.rejection := None |}.
Proof.
  refine (hook_callback_throws demo_client (Some "LISTER"%string) 1001
            throwing_onTx Hook.initial (Some ["TXID"%string])
            (Hook.ErrorObject "render failed") _ _ _); reflexivity.
Defined.
